(** * citizen-report-grid: the access and status policy of the report store

    The store is the PostgreSQL schema of
    [supabase/migrations/20251108142856_5bbe3865-0323-47ce-b8bb-abafa4d8bff6.sql]:
    two tables under row-level security, one role predicate and two triggers.
    Tables are lists of rows, policies are SQL boolean expressions over the
    caller and a row, and a statement either commits a new database or fails
    with an SQLSTATE and leaves the database as it was.

    The client pages ([SubmitReport], [Moderate], [Dashboard]) are programs
    that issue requests against this store.

    The definitions come first: the store, the pages, a small database.
    The properties follow, one section for each subject. *)

From Stdlib Require Import NArith ZArith String Ascii.
From stdpp Require Import base decidable option list gmap.

Local Open Scope Z_scope.
Local Open Scope nat_scope.

(** ** SQL values *)

Abbreviation uuid := N (only parsing).          (* UUID: a 128-bit value *)
Abbreviation timestamptz := Z (only parsing).   (* TIMESTAMPTZ: microseconds *)
Abbreviation text := (list N) (only parsing).   (* TEXT / JS string: UTF-16 code units *)

(** A boolean SQL expression is true, false or NULL. *)
Abbreviation tri := (option bool) (only parsing).

Definition sql_eq {A} `{EqDecision A} (a b : option A) : tri :=
  match a, b with
  | Some x, Some y => Some (bool_decide (x = y))
  | _, _ => None
  end.

Definition sql_and (a b : tri) : tri :=
  match a, b with
  | Some false, _ | _, Some false => Some false
  | Some true, Some true => Some true
  | _, _ => None
  end.

Definition sql_or (a b : tri) : tri :=
  match a, b with
  | Some true, _ | _, Some true => Some true
  | Some false, Some false => Some false
  | _, _ => None
  end.

(** A row passes a qualification only when it evaluates to true: false and
    NULL both reject. *)
Definition holds (t : tri) : bool :=
  match t with Some true => true | _ => false end.

(** ** Enumerated types of the migration *)

Inductive app_role := USER | MODERATOR.
Inductive report_category := power_outage | water_cut | road_damage | other.
Inductive report_status := pending | verified | rejected.

#[global] Instance app_role_eq_dec : EqDecision app_role.
Proof. solve_decision. Defined.
#[global] Instance report_category_eq_dec : EqDecision report_category.
Proof. solve_decision. Defined.
#[global] Instance report_status_eq_dec : EqDecision report_status.
Proof. solve_decision. Defined.

(** ** Tables *)

Module UserRoles.
(** [CREATE TABLE public.user_roles] *)
Record row := Row {
  id : uuid;                  (* PRIMARY KEY DEFAULT gen_random_uuid() *)
  user_id : uuid;             (* REFERENCES auth.users(id) NOT NULL *)
  role : app_role;            (* NOT NULL DEFAULT 'USER' *)
  created_at : timestamptz    (* DEFAULT now() NOT NULL *)
}.

(** The column list of an INSERT: a column with a default may be left out. *)
Record insert_values := Values {
  ins_id : option uuid;
  ins_user_id : uuid;
  ins_role : option app_role;
  ins_created_at : option timestamptz
}.

(** The SET list of an UPDATE: a column left out keeps its value. *)
Record set_values := Set_ {
  set_id : option uuid;
  set_user_id : option uuid;
  set_role : option app_role;
  set_created_at : option timestamptz
}.

Definition apply_set (s : set_values) (r : row) : row :=
  {| id := default (id r) (set_id s);
     user_id := default (user_id r) (set_user_id s);
     role := default (role r) (set_role s);
     created_at := default (created_at r) (set_created_at s) |}.
End UserRoles.

Module Reports.
(** [CREATE TABLE public.reports] *)
Record row := Row {
  id : uuid;                          (* PRIMARY KEY DEFAULT gen_random_uuid() *)
  title : text;                       (* NOT NULL *)
  category : report_category;         (* NOT NULL *)
  description : text;                 (* NOT NULL *)
  image_url : option text;
  location : option text;
  status : report_status;             (* DEFAULT 'pending' NOT NULL *)
  user_id : uuid;                     (* REFERENCES auth.users(id) NOT NULL *)
  verified_by : option uuid;          (* REFERENCES auth.users(id) *)
  verified_at : option timestamptz;
  created_at : timestamptz;           (* DEFAULT now() NOT NULL *)
  updated_at : timestamptz            (* DEFAULT now() NOT NULL *)
}.

Record insert_values := Values {
  ins_id : option uuid;
  ins_title : text;
  ins_category : report_category;
  ins_description : text;
  ins_image_url : option text;
  ins_location : option text;
  ins_status : option report_status;
  ins_user_id : uuid;
  ins_verified_by : option uuid;
  ins_verified_at : option timestamptz;
  ins_created_at : option timestamptz;
  ins_updated_at : option timestamptz
}.

(** For a nullable column the SET list may also assign NULL. *)
Record set_values := Set_ {
  set_id : option uuid;
  set_title : option text;
  set_category : option report_category;
  set_description : option text;
  set_image_url : option (option text);
  set_location : option (option text);
  set_status : option report_status;
  set_user_id : option uuid;
  set_verified_by : option (option uuid);
  set_verified_at : option (option timestamptz);
  set_created_at : option timestamptz;
  set_updated_at : option timestamptz
}.

Definition apply_set (s : set_values) (r : row) : row :=
  {| id := default (id r) (set_id s);
     title := default (title r) (set_title s);
     category := default (category r) (set_category s);
     description := default (description r) (set_description s);
     image_url := default (image_url r) (set_image_url s);
     location := default (location r) (set_location s);
     status := default (status r) (set_status s);
     user_id := default (user_id r) (set_user_id s);
     verified_by := default (verified_by r) (set_verified_by s);
     verified_at := default (verified_at r) (set_verified_at s);
     created_at := default (created_at r) (set_created_at s);
     updated_at := default (updated_at r) (set_updated_at s) |}.

(** A SET list that assigns nothing, and one that assigns the status. *)
Definition set_nothing : set_values :=
  Set_ None None None None None None None None None None None None.

Definition set_status_to (s : report_status) : set_values :=
  Set_ None None None None None None (Some s) None None None None None.
End Reports.

(** The database: the identities of [auth.users] and the two public tables. *)
Record Db := MkDb {
  auth_users : gset N;
  user_roles : list UserRoles.row;
  reports : list Reports.row
}.

(** What a request carries besides its statement: the caller ([auth.uid()],
    NULL for an anonymous caller), the transaction time ([now()]) and the
    value [gen_random_uuid()] yields for it. *)
Record request_env := Env {
  auth_uid : option uuid;
  now : timestamptz;
  gen_random_uuid : uuid
}.

(** [public.has_role(_user_id, _role)]: EXISTS over [user_roles]; a NULL
    [_user_id] matches no row. *)
Definition has_role (db : Db) (_user_id : option uuid) (_role : app_role) : bool :=
  existsb
    (λ r, holds (sql_and (sql_eq (Some (UserRoles.user_id r)) _user_id)
                         (sql_eq (Some (UserRoles.role r)) (Some _role))))
    (user_roles db).

(** ** Row-level security *)

Inductive command := SELECT | INSERT | UPDATE | DELETE.

#[global] Instance command_eq_dec : EqDecision command.
Proof. solve_decision. Defined.

(** A policy expression sees the caller, the database (through [has_role])
    and one row. *)
Abbreviation expr row := (option uuid → Db → row → tri) (only parsing).

(** [CREATE POLICY name ON table FOR command USING (...) WITH CHECK (...)]. *)
Record policy (row : Type) := Policy {
  pol_name : string;
  pol_for : command;
  pol_using : option (expr row);
  pol_with_check : option (expr row)
}.
Arguments Policy {row}.
Arguments pol_name {row}.
Arguments pol_for {row}.
Arguments pol_using {row}.
Arguments pol_with_check {row}.

(** The policies of a table that apply to a command. All policies of the
    migration are permissive, so they combine with OR; a command with no
    policy is denied on every row. *)
Definition policies_for {row} (cmd : command) (ps : list (policy row)) :
    list (policy row) :=
  filter (λ p, pol_for p = cmd) ps.

(** USING is tested on existing rows: a row that fails is not visible to the
    command and is skipped without an error. *)
Definition using_qual {row} (p : policy row) : expr row :=
  match pol_using p with
  | Some e => e
  | None => λ _ _ _, Some true
  end.

(** WITH CHECK is tested on new rows and a failure is an error. A policy
    created with a USING clause only has that expression tested on new rows
    as well (PostgreSQL, CREATE POLICY: if only a USING clause is specified,
    that clause is used for both the USING and the WITH CHECK case). *)
Definition with_check_qual {row} (p : policy row) : expr row :=
  match pol_with_check p with
  | Some e => e
  | None => using_qual p
  end.

Definition passes_using {row} (cmd : command) (ps : list (policy row))
    (uid : option uuid) (db : Db) (r : row) : bool :=
  existsb (λ p, holds (using_qual p uid db r)) (policies_for cmd ps).

Definition passes_with_check {row} (cmd : command) (ps : list (policy row))
    (uid : option uuid) (db : Db) (r : row) : bool :=
  existsb (λ p, holds (with_check_qual p uid db r)) (policies_for cmd ps).

(** *** Policies of [public.user_roles] *)

Definition Users_can_view_their_own_roles : policy UserRoles.row :=
  Policy "Users can view their own roles" SELECT
    (Some (λ uid _ r, sql_eq uid (Some (UserRoles.user_id r))))
    None.

Definition Users_can_insert_their_own_role_on_signup : policy UserRoles.row :=
  Policy "Users can insert their own role on signup" INSERT
    None
    (Some (λ uid _ r,
       sql_and (sql_eq uid (Some (UserRoles.user_id r)))
               (sql_eq (Some (UserRoles.role r)) (Some USER)))).

Definition user_roles_policies : list (policy UserRoles.row) :=
  [ Users_can_view_their_own_roles;
    Users_can_insert_their_own_role_on_signup ].

(** *** Policies of [public.reports] *)

Definition Anyone_can_view_verified_reports : policy Reports.row :=
  Policy "Anyone can view verified reports" SELECT
    (Some (λ uid db r,
       sql_or (sql_or (sql_eq (Some (Reports.status r)) (Some verified))
                      (sql_eq uid (Some (Reports.user_id r))))
              (Some (has_role db uid MODERATOR))))
    None.

Definition Users_can_create_reports : policy Reports.row :=
  Policy "Users can create reports" INSERT
    None
    (Some (λ uid _ r, sql_eq uid (Some (Reports.user_id r)))).

Definition Users_can_update_their_own_pending_reports : policy Reports.row :=
  Policy "Users can update their own pending reports" UPDATE
    (Some (λ uid _ r,
       sql_and (sql_eq uid (Some (Reports.user_id r)))
               (sql_eq (Some (Reports.status r)) (Some pending))))
    None.

Definition Moderators_can_update_any_report : policy Reports.row :=
  Policy "Moderators can update any report" UPDATE
    (Some (λ uid db _, Some (has_role db uid MODERATOR)))
    None.

Definition reports_policies : list (policy Reports.row) :=
  [ Anyone_can_view_verified_reports;
    Users_can_create_reports;
    Users_can_update_their_own_pending_reports;
    Moderators_can_update_any_report ].

(** ** Triggers *)

(** [public.update_updated_at_column()], BEFORE UPDATE ON reports FOR EACH
    ROW: [NEW.updated_at = now(); RETURN NEW]. *)
Definition update_updated_at_column (now : timestamptz) (NEW : Reports.row) :
    Reports.row :=
  {| Reports.id := Reports.id NEW;
     Reports.title := Reports.title NEW;
     Reports.category := Reports.category NEW;
     Reports.description := Reports.description NEW;
     Reports.image_url := Reports.image_url NEW;
     Reports.location := Reports.location NEW;
     Reports.status := Reports.status NEW;
     Reports.user_id := Reports.user_id NEW;
     Reports.verified_by := Reports.verified_by NEW;
     Reports.verified_at := Reports.verified_at NEW;
     Reports.created_at := Reports.created_at NEW;
     Reports.updated_at := now |}.

(** ** Statements *)

Inductive sqlstate :=
| insufficient_privilege   (* 42501: new row violates row-level security policy *)
| unique_violation         (* 23505 *)
| foreign_key_violation    (* 23503 *)
| invalid_text_representation.   (* 22P02: not a label of the enum *)

(** The integrity errors are the constraint violations (class 23). *)
Definition integrity_error (e : sqlstate) : bool :=
  match e with
  | unique_violation | foreign_key_violation => true
  | insufficient_privilege | invalid_text_representation => false
  end.

Inductive result (A : Type) := Ok (a : A) | Err (e : sqlstate).
Arguments Ok {A}.
Arguments Err {A}.

(** The constraints of [user_roles]: PRIMARY KEY (id), UNIQUE (user_id,
    role), and the foreign key into [auth.users]. *)
Definition user_roles_violation (users : gset N) (rows : list UserRoles.row) :
    option sqlstate :=
  if negb (bool_decide (NoDup (UserRoles.id <$> rows))) then Some unique_violation
  else if negb (bool_decide
                  (NoDup ((λ r, (UserRoles.user_id r, UserRoles.role r)) <$> rows)))
  then Some unique_violation
  else if negb (forallb (λ r, bool_decide (UserRoles.user_id r ∈ users)) rows)
  then Some foreign_key_violation
  else None.

(** The constraints of [reports]: PRIMARY KEY (id) and the two foreign keys
    into [auth.users]; a NULL [verified_by] references nothing. *)
Definition reports_violation (users : gset N) (rows : list Reports.row) :
    option sqlstate :=
  if negb (bool_decide (NoDup (Reports.id <$> rows))) then Some unique_violation
  else if negb (forallb
                  (λ r, bool_decide (Reports.user_id r ∈ users)
                        && match Reports.verified_by r with
                           | Some v => bool_decide (v ∈ users)
                           | None => true
                           end) rows)
  then Some foreign_key_violation
  else None.

Definition with_user_roles (db : Db) (rows : list UserRoles.row) : Db :=
  MkDb (auth_users db) rows (reports db).

Definition with_reports (db : Db) (rows : list Reports.row) : Db :=
  MkDb (auth_users db) (user_roles db) rows.

(** The generic part of UPDATE and DELETE under row-level security. Both
    read the table (a WHERE clause on its columns), so the SELECT policies
    apply as well: as one more qualification on the existing row and as one
    more check on the new one. *)
Section RowSecurity.
Context {row : Type} (ps : list (policy row)) (uid : option uuid) (db : Db).

Definition updatable (r : row) : bool :=
  passes_using SELECT ps uid db r && passes_using UPDATE ps uid db r.

Definition deletable (r : row) : bool :=
  passes_using SELECT ps uid db r && passes_using DELETE ps uid db r.

Definition admissible (r' : row) : bool :=
  passes_with_check UPDATE ps uid db r' && passes_using SELECT ps uid db r'.

(** Rows the WHERE clause selects and the policies let through are
    replaced by [new]; one inadmissible new row fails the statement. *)
Definition update_rows (where_ : row → bool) (new : row → row)
    (rows : list row) : result (list row * nat) :=
  let hit r := where_ r && updatable r in
  if forallb (λ r, negb (hit r) || admissible (new r)) rows
  then Ok ((λ r, if hit r then new r else r) <$> rows,
           length (filter (λ r, hit r) rows))
  else Err insufficient_privilege.

Definition delete_rows (where_ : row → bool) (rows : list row) :
    list row * nat :=
  let hit r := where_ r && deletable r in
  (filter (λ r, negb (hit r)) rows, length (filter (λ r, hit r) rows)).
End RowSecurity.

(** *** Statements on [user_roles] *)

Definition user_roles_new_row (env : request_env) (v : UserRoles.insert_values) :
    UserRoles.row :=
  {| UserRoles.id := default (gen_random_uuid env) (UserRoles.ins_id v);
     UserRoles.user_id := UserRoles.ins_user_id v;
     UserRoles.role := default USER (UserRoles.ins_role v);
     UserRoles.created_at := default (now env) (UserRoles.ins_created_at v) |}.

(** Writing the table back checks its constraints. *)
Definition store_user_roles (db : Db) (rows : list UserRoles.row) : result Db :=
  match user_roles_violation (auth_users db) rows with
  | Some e => Err e
  | None => Ok (with_user_roles db rows)
  end.

(** INSERT at table level, as the table owner runs it: no policy applies. *)
Definition user_roles_insert (NEW : UserRoles.row) (db : Db) : result Db :=
  store_user_roles db (user_roles db ++ [NEW]).

(** INSERT by a client: the new row is checked against the INSERT policy
    first. *)
Definition insert_user_role (env : request_env) (v : UserRoles.insert_values)
    (db : Db) : result Db :=
  let NEW := user_roles_new_row env v in
  if passes_with_check INSERT user_roles_policies (auth_uid env) db NEW
  then user_roles_insert NEW db
  else Err insufficient_privilege.

Definition update_user_roles (env : request_env)
    (where_ : UserRoles.row → bool) (s : UserRoles.set_values) (db : Db) :
    result (Db * nat) :=
  match update_rows user_roles_policies (auth_uid env) db where_
          (UserRoles.apply_set s) (user_roles db) with
  | Err e => Err e
  | Ok (rows, n) =>
      match store_user_roles db rows with
      | Err e => Err e
      | Ok db' => Ok (db', n)
      end
  end.

Definition delete_user_roles (env : request_env)
    (where_ : UserRoles.row → bool) (db : Db) : Db * nat :=
  let '(rows, n) :=
    delete_rows user_roles_policies (auth_uid env) db where_ (user_roles db) in
  (with_user_roles db rows, n).

Definition select_user_roles (env : request_env) (db : Db) : list UserRoles.row :=
  filter (λ r, passes_using SELECT user_roles_policies (auth_uid env) db r)
         (user_roles db).

(** [public.handle_new_user()], AFTER INSERT ON auth.users FOR EACH ROW,
    SECURITY DEFINER:
    [INSERT INTO public.user_roles (user_id, role) VALUES (NEW.id, 'USER')]. *)
Definition handle_new_user (env : request_env) (NEW_id : uuid) (db : Db) :
    result Db :=
  user_roles_insert
    (user_roles_new_row env (UserRoles.Values None NEW_id (Some USER) None)) db.

(** Registration of an identity: the row enters [auth.users] (primary key
    [id]) and the trigger [on_auth_user_created] fires in the same
    transaction. *)
Definition insert_auth_user (env : request_env) (new_id : uuid) (db : Db) :
    result Db :=
  if bool_decide (new_id ∈ auth_users db) then Err unique_violation
  else handle_new_user env new_id
         (MkDb ({[new_id]} ∪ auth_users db) (user_roles db) (reports db)).

(** *** Statements on [reports] *)

Definition reports_new_row (env : request_env) (v : Reports.insert_values) :
    Reports.row :=
  {| Reports.id := default (gen_random_uuid env) (Reports.ins_id v);
     Reports.title := Reports.ins_title v;
     Reports.category := Reports.ins_category v;
     Reports.description := Reports.ins_description v;
     Reports.image_url := Reports.ins_image_url v;
     Reports.location := Reports.ins_location v;
     Reports.status := default pending (Reports.ins_status v);
     Reports.user_id := Reports.ins_user_id v;
     Reports.verified_by := Reports.ins_verified_by v;
     Reports.verified_at := Reports.ins_verified_at v;
     Reports.created_at := default (now env) (Reports.ins_created_at v);
     Reports.updated_at := default (now env) (Reports.ins_updated_at v) |}.

Definition store_reports (db : Db) (rows : list Reports.row) : result Db :=
  match reports_violation (auth_users db) rows with
  | Some e => Err e
  | None => Ok (with_reports db rows)
  end.

Definition insert_report (env : request_env) (v : Reports.insert_values)
    (db : Db) : result Db :=
  let NEW := reports_new_row env v in
  if passes_with_check INSERT reports_policies (auth_uid env) db NEW
  then store_reports db (reports db ++ [NEW])
  else Err insufficient_privilege.

(** [UPDATE reports SET ... WHERE id = target]; the trigger
    [update_reports_updated_at] runs on each new row before it is checked
    and stored. *)
Definition update_report (env : request_env) (target : uuid)
    (s : Reports.set_values) (db : Db) : result (Db * nat) :=
  match update_rows reports_policies (auth_uid env) db
          (λ r, bool_decide (Reports.id r = target))
          (λ r, update_updated_at_column (now env) (Reports.apply_set s r))
          (reports db) with
  | Err e => Err e
  | Ok (rows, n) =>
      match store_reports db rows with
      | Err e => Err e
      | Ok db' => Ok (db', n)
      end
  end.

Definition delete_reports (env : request_env) (where_ : Reports.row → bool)
    (db : Db) : Db * nat :=
  let '(rows, n) :=
    delete_rows reports_policies (auth_uid env) db where_ (reports db) in
  (with_reports db rows, n).

Definition select_reports (env : request_env) (db : Db) : list Reports.row :=
  filter (λ r, passes_using SELECT reports_policies (auth_uid env) db r)
         (reports db).

(** *** Requests *)

(** What a client can send to the store. *)
Inductive statement :=
| SignUp (new_id : uuid)
| InsertUserRole (v : UserRoles.insert_values)
| UpdateUserRoles (where_ : UserRoles.row → bool) (s : UserRoles.set_values)
| DeleteUserRoles (where_ : UserRoles.row → bool)
| InsertReport (v : Reports.insert_values)
| UpdateReport (target : uuid) (s : Reports.set_values)
| DeleteReports (where_ : Reports.row → bool).

Definition perform (env : request_env) (st : statement) (db : Db) :
    result (Db * nat) :=
  match st with
  | SignUp new_id =>
      match insert_auth_user env new_id db with
      | Ok db' => Ok (db', 1)
      | Err e => Err e
      end
  | InsertUserRole v =>
      match insert_user_role env v db with
      | Ok db' => Ok (db', 1)
      | Err e => Err e
      end
  | UpdateUserRoles where_ s => update_user_roles env where_ s db
  | DeleteUserRoles where_ => Ok (delete_user_roles env where_ db)
  | InsertReport v =>
      match insert_report env v db with
      | Ok db' => Ok (db', 1)
      | Err e => Err e
      end
  | UpdateReport target s => update_report env target s db
  | DeleteReports where_ => Ok (delete_reports env where_ db)
  end.

(** A request is one transaction: it commits the new database and reports
    the number of rows it touched, or fails and leaves the database as it
    was. *)
Definition execute (env : request_env) (st : statement) (db : Db) :
    Db * result nat :=
  match perform env st db with
  | Ok (db', n) => (db', Ok n)
  | Err e => (db, Err e)
  end.

(** A sequence of requests, each with its own caller and time. *)
Fixpoint execute_all (reqs : list (request_env * statement)) (db : Db) : Db :=
  match reqs with
  | [] => db
  | (env, st) :: reqs => execute_all reqs (execute env st db).1
  end.

(** The database satisfies its constraints. *)
Definition consistent (db : Db) : Prop :=
  user_roles_violation (auth_users db) (user_roles db) = None ∧
  reports_violation (auth_users db) (reports db) = None.

(** * The client pages *)

(** ** JavaScript strings *)

(** A string literal of the source as a sequence of code units. *)
Definition lit (s : string) : text :=
  (λ a, N_of_ascii a) <$> list_ascii_of_string s.

(** White space and line terminators, the code units [trim] strips. *)
Definition is_white_space (c : N) : bool :=
  bool_decide (c ∈ [9; 10; 11; 12; 13; 32; 160; 5760; 8232; 8233; 8239; 8287;
                    12288; 65279]%N)
  || ((8192 <=? c)%N && (c <=? 8202)%N).

Fixpoint trimStart (s : text) : text :=
  match s with
  | c :: s' => if is_white_space c then trimStart s' else s
  | [] => []
  end.

Definition trimEnd (s : text) : text := rev (trimStart (rev s)).

(** [String.prototype.trim] *)
Definition trim (s : text) : text := trimEnd (trimStart s).

(** [s.split(sep).pop()]: what follows the last separator, or all of [s]. *)
Fixpoint split_pop (sep : N) (s : text) (segment : text) : text :=
  match s with
  | [] => segment
  | c :: s' =>
      if bool_decide (c = sep) then split_pop sep s' []
      else split_pop sep s' (segment ++ [c])
  end.

(** [array.join(sep)] *)
Fixpoint join (sep : text) (parts : list text) : text :=
  match parts with
  | [] => []
  | [p] => p
  | p :: parts => p ++ sep ++ join sep parts
  end.

(** ** The part of zod the report form uses *)

Module Zod.
Inductive field := title | category | description | location.

(** An issue: the key of the object it is about and its message. *)
Record ZodIssue := Issue { path : field; message : text }.

(** The checks of a [z.string()] schema, run in the order they were chained
    on the running value: [trim] replaces the value, [min] and [max] compare
    its length and add an issue. *)
Inductive check :=
| trim_
| min_ (value : nat) (message : text)
| max_ (value : nat) (message : text).

Fixpoint parse_string (checks : list check) (data : text) : text * list text :=
  match checks with
  | [] => (data, [])
  | trim_ :: checks => parse_string checks (trim data)
  | min_ value message :: checks =>
      let '(out, issues) := parse_string checks data in
      (out, if length data <? value then message :: issues else issues)
  | max_ value message :: checks =>
      let '(out, issues) := parse_string checks data in
      (out, if value <? length data then message :: issues else issues)
  end.

(** The message of the default error map for a value outside an enum. *)
Definition invalid_enum_value (options : list text) (received : text) : text :=
  lit "Invalid enum value. Expected "
  ++ join (lit " | ") ((λ o, lit "'" ++ o ++ lit "'") <$> options)
  ++ lit ", received '" ++ received ++ lit "'".

(** [z.enum(options)] on a string: the value itself, or one issue. *)
Definition parse_enum (options : list text) (data : text) : text * list text :=
  if bool_decide (data ∈ options) then (data, [])
  else (data, [invalid_enum_value options data]).

(** [.optional()]: [undefined] passes without a check. *)
Definition parse_optional (checks : list check) (data : option text) :
    option text * list text :=
  match data with
  | None => (None, [])
  | Some s => let '(out, issues) := parse_string checks s in (Some out, issues)
  end.

Definition at_ (f : field) (messages : list text) : list ZodIssue :=
  Issue f <$> messages.
End Zod.

(** ** [reportSchema] *)

Definition MAX_FILE_SIZE : N := 5 * 1024 * 1024.

Module ReportSchema.
(** The four keys of [reportSchema]. *)
Definition title_checks : list Zod.check :=
  [ Zod.trim_; Zod.min_ 1 (lit "Title is required");
    Zod.max_ 200 (lit "Title must be less than 200 characters") ].

Definition category_options : list text :=
  [ lit "power_outage"; lit "water_cut"; lit "road_damage"; lit "other" ].

Definition description_checks : list Zod.check :=
  [ Zod.trim_; Zod.min_ 1 (lit "Description is required");
    Zod.max_ 2000 (lit "Description must be less than 2000 characters") ].

Definition location_checks : list Zod.check :=
  [ Zod.trim_; Zod.max_ 500 (lit "Location must be less than 500 characters") ].

(** The object handed to [safeParse] and the object it returns. *)
Record report_input := Input {
  title : text;
  category : text;
  description : text;
  location : option text
}.

Inductive SafeParseReturn :=
| success (data : report_input)
| failure (errors : list Zod.ZodIssue).

(** The keys are parsed in the order of the schema and their issues
    collected in that order. *)
Definition parse (input : report_input) : report_input * list Zod.ZodIssue :=
  let '(t, title_issues) := Zod.parse_string title_checks (title input) in
  let '(c, category_issues) := Zod.parse_enum category_options (category input) in
  let '(d, description_issues) :=
    Zod.parse_string description_checks (description input) in
  let '(l, location_issues) :=
    Zod.parse_optional location_checks (location input) in
  (Input t c d l,
   Zod.at_ Zod.title title_issues ++ Zod.at_ Zod.category category_issues
   ++ Zod.at_ Zod.description description_issues
   ++ Zod.at_ Zod.location location_issues).

(** [reportSchema.safeParse] *)
Definition safeParse (input : report_input) : SafeParseReturn :=
  match parse input with
  | (data, []) => success data
  | (_, errors) => failure errors
  end.

(** The messages an issue of the schema can carry. *)
Definition messages (input : report_input) : list text :=
  [ lit "Title is required";
    lit "Title must be less than 200 characters";
    Zod.invalid_enum_value category_options (category input);
    lit "Description is required";
    lit "Description must be less than 2000 characters";
    lit "Location must be less than 500 characters" ].
End ReportSchema.

(** ** Requests of the pages *)

Record File := MkFile { file_name : text; file_size : N }.

Record toast_props := Toast {
  toast_title : text;
  toast_description : text;
  toast_variant : option text
}.

(** The object [SubmitReport] passes to [insert]. *)
Record report_values := ReportValues {
  v_title : text;
  v_category : text;
  v_description : text;
  v_location : option text;
  v_image_url : option text;
  v_user_id : uuid
}.

(** The [error] of a response. *)
Record PostgrestError := MkError { error_message : text }.

(** [interface Stats] of the dashboard. *)
Module Stats.
Record t := Make {
  total : nat;
  verified : nat;
  pending : nat;
  rejected : nat
}.
End Stats.

(** A row of [select("status")]. *)
Record status_row := StatusRow { row_status : text }.

(** What a page asks of its surroundings, with the type of the answer. *)
Inductive call : Type → Type :=
| storage_upload (bucket fileName : text) (file : File) :
    call (option PostgrestError)
| storage_getPublicUrl (bucket fileName : text) : call text
| reports_insert (values : report_values) : call (option PostgrestError)
| reports_update_status (status : text) (id : uuid) : call (option PostgrestError)
| reports_select_status : call (option (list status_row))
| crypto_randomUUID : call text
| Math_random : call text
| toast (props : toast_props) : call unit
| navigate (to : text) : call unit
| setLoading (loading : bool) : call unit
| setStats (stats : Stats.t) : call unit.

(** A handler of a page: it returns, or makes a call and goes on with the
    answer. *)
Inductive client (R : Type) : Type :=
| Ret (r : R)
| Call {X : Type} (c : call X) (k : X → client R).
Arguments Ret {R}.
Arguments Call {R X}.

Fixpoint bind {A B} (m : client A) (f : A → client B) : client B :=
  match m with
  | Ret a => f a
  | Call c k => Call c (λ x, bind (k x) f)
  end.

Definition await {X} (c : call X) : client X := Call c Ret.

#[global] Instance client_ret : MRet client := @Ret.
#[global] Instance client_bind : MBind client := λ A B f m, bind m f.

(** *** [SubmitReport.handleSubmit] *)

Module SubmitReport.
(** The state of the form. *)
Record form := Form {
  title : text;
  category : text;
  description : text;
  location : text;
  image : option File
}.

(** The [catch] block. *)
Definition catch : client unit :=
  await (toast (Toast (lit "Submission failed")
                      (lit "Failed to submit report. Please try again.")
                      (Some (lit "destructive")))).

(** The upload of the optional image: the thrown error, or [imageUrl]. *)
Definition upload_image (image : option File) :
    client (PostgrestError + option text) :=
  match image with
  | Some image =>
      let fileExt := split_pop 46 (file_name image) [] in
      uuid ← await crypto_randomUUID;
      let fileName := uuid ++ lit "." ++ fileExt in
      uploadError ← await (storage_upload (lit "report-images") fileName image);
      match uploadError with
      | Some uploadError => Ret (inl uploadError)
      | None =>
          publicUrl ← await (storage_getPublicUrl (lit "report-images") fileName);
          Ret (inr (Some publicUrl))
      end
  | None => Ret (inr None)
  end.

(** [a || b] on an optional string: the empty string is falsy. *)
Definition or_else (a : option text) : option text :=
  match a with
  | Some [] | None => None
  | Some s => Some s
  end.

Definition handleSubmit (user : option uuid) (f : form) : client unit :=
  match user with
  | None => Ret ()
  | Some user_id =>
      await (setLoading true);;
      match ReportSchema.safeParse
              (ReportSchema.Input (title f) (category f) (description f)
                                  (or_else (Some (location f)))) with
      | ReportSchema.failure errors =>
          match errors with
          | firstError :: _ =>
              await (toast (Toast (lit "Validation failed")
                                  (Zod.message firstError)
                                  (Some (lit "destructive"))));;
              await (setLoading false)
          | [] => catch;; await (setLoading false)
          end
      | ReportSchema.success data =>
          if match image f with
             | Some image => (MAX_FILE_SIZE <? file_size image)%N
             | None => false
             end
          then
            await (toast (Toast (lit "Validation failed")
                                (lit "Image must be less than 5MB")
                                (Some (lit "destructive"))));;
            await (setLoading false)
          else
            uploaded ← upload_image (image f);
            match uploaded with
            | inl _ => catch;; await (setLoading false)
            | inr imageUrl =>
                error ← await (reports_insert
                  (ReportValues (ReportSchema.title data)
                                (ReportSchema.category data)
                                (ReportSchema.description data)
                                (or_else (ReportSchema.location data))
                                imageUrl user_id));
                match error with
                | Some _ => catch;; await (setLoading false)
                | None =>
                    await (toast (Toast (lit "Report submitted")
                      (lit "Your report has been submitted successfully.")
                      None));;
                    await (navigate (lit "/dashboard"));;
                    await (setLoading false)
                end
            end
      end
  end.
End SubmitReport.

(** *** The second copy of the page

    [part_000] holds the page twice. The copy above (lines 1 to 192) has
    [reportSchema]; the one below (lines 193 to 339) has the same form and
    sends it as it stands. *)

Module SubmitReportUnchecked.
Definition catch (error : PostgrestError) : client unit :=
  await (toast (Toast (lit "Submission failed") (error_message error)
                      (Some (lit "destructive")))).

Definition upload_image (image : option File) :
    client (PostgrestError + option text) :=
  match image with
  | Some image =>
      let fileExt := split_pop 46 (file_name image) [] in
      random ← await Math_random;
      let fileName := random ++ lit "." ++ fileExt in
      uploadError ← await (storage_upload (lit "report-images") fileName image);
      match uploadError with
      | Some uploadError => Ret (inl uploadError)
      | None =>
          publicUrl ← await (storage_getPublicUrl (lit "report-images") fileName);
          Ret (inr (Some publicUrl))
      end
  | None => Ret (inr None)
  end.

Definition handleSubmit (user : option uuid) (f : SubmitReport.form) :
    client unit :=
  match user with
  | None => Ret ()
  | Some user_id =>
      await (setLoading true);;
      uploaded ← upload_image (SubmitReport.image f);
      match uploaded with
      | inl uploadError => catch uploadError;; await (setLoading false)
      | inr imageUrl =>
          error ← await (reports_insert
            (ReportValues (SubmitReport.title f) (SubmitReport.category f)
                          (SubmitReport.description f)
                          (SubmitReport.or_else (Some (SubmitReport.location f)))
                          imageUrl user_id));
          match error with
          | Some error => catch error;; await (setLoading false)
          | None =>
              await (toast (Toast (lit "Report submitted")
                (lit "Your report has been submitted successfully.")
                None));;
              await (navigate (lit "/dashboard"));;
              await (setLoading false)
          end
      end
  end.
End SubmitReportUnchecked.

(** *** [Moderate.updateStatus] *)

Module Moderate.
(** The type ["verified" | "rejected"] of the second argument. *)
Inductive review := verified | rejected.

Definition label (status : review) : text :=
  match status with
  | verified => lit "verified"
  | rejected => lit "rejected"
  end.

Definition updateStatus (reportId : uuid) (status : review) : client unit :=
  error ← await (reports_update_status (label status) reportId);
  match error with
  | Some error =>
      await (toast (Toast (lit "Update failed") (error_message error)
                          (Some (lit "destructive"))))
  | None =>
      await (toast (Toast (lit "Report updated")
                          (lit "Report " ++ label status ++ lit ".") None))
  end.

(** The buttons rendered on a report: Verify and Reject, only while
    [report.status === "pending"]. *)
Definition buttons (status : text) : list review :=
  if bool_decide (status = lit "pending") then [verified; rejected] else [].
End Moderate.

(** *** [Dashboard.fetchStats] *)

Module Dashboard.
(** The object built from [data]. *)
Definition stats (data : list status_row) : Stats.t :=
  {| Stats.total := length data;
     Stats.verified :=
       length (filter (λ r, row_status r = lit "verified") data);
     Stats.pending :=
       length (filter (λ r, row_status r = lit "pending") data);
     Stats.rejected :=
       length (filter (λ r, row_status r = lit "rejected") data) |}.

Definition fetchStats : client unit :=
  data ← await reports_select_status;
  match data with
  | Some data => await (setStats (stats data))
  | None => Ret ()
  end.
End Dashboard.

(** ** The pages against the store *)

(** Input and output of the enum types: a label, or no value. *)
Definition report_category_in (s : text) : option report_category :=
  if bool_decide (s = lit "power_outage") then Some power_outage
  else if bool_decide (s = lit "water_cut") then Some water_cut
  else if bool_decide (s = lit "road_damage") then Some road_damage
  else if bool_decide (s = lit "other") then Some other
  else None.

Definition report_status_in (s : text) : option report_status :=
  if bool_decide (s = lit "pending") then Some pending
  else if bool_decide (s = lit "verified") then Some verified
  else if bool_decide (s = lit "rejected") then Some rejected
  else None.

Definition report_status_out (s : report_status) : text :=
  match s with
  | pending => lit "pending"
  | verified => lit "verified"
  | rejected => lit "rejected"
  end.

(** What a page leaves on the screen. *)
Inductive effect :=
| Toasted (props : toast_props)
| Navigated (to : text)
| Loading (loading : bool)
| StatsSet (stats : Stats.t).

Record world := World { db : Db; screen : list effect }.

Section Backend.
(** The session of the caller with the time and random id of its request,
    and the answers of the services the repository does not define. *)
Variable env : request_env.
Variable upload_answer : text → text → File → option PostgrestError.
Variable public_url : text → text → text.
Variable random_uuid : text.
Variable random_number : text.
Variable message_of : sqlstate → text.

Definition error_of (r : result nat) : option PostgrestError :=
  match r with
  | Ok _ => None
  | Err e => Some (MkError (message_of e))
  end.

(** [from("reports").insert(values)]: the columns the object names, the
    others at their defaults. *)
Definition insert_statement (v : report_values) : option statement :=
  match report_category_in (v_category v) with
  | Some c =>
      Some (InsertReport
              (Reports.Values None (v_title v) c (v_description v)
                 (v_image_url v) (v_location v) None (v_user_id v)
                 None None None None))
  | None => None
  end.

(** [from("reports").update({ status }).eq("id", id)] *)
Definition update_status_statement (status : text) (id : uuid) :
    option statement :=
  match report_status_in status with
  | Some s => Some (UpdateReport id (Reports.set_status_to s))
  | None => None
  end.

Definition request (st : option statement) (w : world) :
    world * option PostgrestError :=
  match st with
  | Some st =>
      let '(db', r) := execute env st (db w) in
      (World db' (screen w), error_of r)
  | None => (w, Some (MkError (message_of invalid_text_representation)))
  end.

Definition show (e : effect) (w : world) : world * unit :=
  (World (db w) (screen w ++ [e]), ()).

Definition answer {X} (c : call X) (w : world) : world * X :=
  match c in call X return world * X with
  | storage_upload bucket fileName file => (w, upload_answer bucket fileName file)
  | storage_getPublicUrl bucket fileName => (w, public_url bucket fileName)
  | reports_insert values => request (insert_statement values) w
  | reports_update_status status id =>
      request (update_status_statement status id) w
  | reports_select_status =>
      (w, Some ((λ r, StatusRow (report_status_out (Reports.status r)))
                <$> select_reports env (db w)))
  | crypto_randomUUID => (w, random_uuid)
  | Math_random => (w, random_number)
  | toast props => show (Toasted props) w
  | navigate to => show (Navigated to) w
  | setLoading loading => show (Loading loading) w
  | setStats stats => show (StatsSet stats) w
  end.

Fixpoint run {R} (m : client R) (w : world) : world * R :=
  match m with
  | Ret r => (w, r)
  | Call c k => let '(w', x) := answer c w in run (k x) w'
  end.
End Backend.

(** A handler makes a call of a given kind, on some answers of its
    surroundings to the calls before it. *)
Fixpoint calls {R} (P : ∀ X, call X → Prop) (m : client R) : Prop :=
  match m with
  | Ret _ => False
  | Call c k => P _ c ∨ ∃ x, calls P (k x)
  end.

Definition is_insert (X : Type) (c : call X) : Prop :=
  match c with reports_insert _ => True | _ => False end.

Definition is_upload (X : Type) (c : call X) : Prop :=
  match c with storage_upload _ _ _ => True | _ => False end.

(** ** A small database

    Alice and Carol are users, Bob is also a moderator; Alice has a pending
    and a verified report, Carol a rejected one. *)

Module Sample.
Definition alice : uuid := 1.
Definition bob : uuid := 2.
Definition carol : uuid := 3.

Definition report (id : uuid) (status : report_status) (owner : uuid) :
    Reports.row :=
  Reports.Row id (lit "Pothole") road_damage (lit "pothole on Elm St")
    None None status owner None None 5%Z 5%Z.

Definition db0 : Db :=
  MkDb {[alice; bob; carol]}
    [ UserRoles.Row 10 alice USER 0%Z;
      UserRoles.Row 11 bob USER 0%Z;
      UserRoles.Row 12 bob MODERATOR 0%Z;
      UserRoles.Row 13 carol USER 0%Z ]
    [ report 100 pending alice;
      report 101 verified alice;
      report 102 rejected carol ].

(** A request of a caller at time 9, for which [gen_random_uuid()] is 500. *)
Definition as_ (caller : option uuid) : request_env := Env caller 9%Z 500.

(** A form whose description is 2000 letters and a trailing space. *)
Definition padded_form : SubmitReport.form :=
  SubmitReport.Form (lit "Pothole") (lit "road_damage")
    (replicate 2000 97%N ++ [32%N]) [] None.

(** A page opened by a caller; every upload succeeds. *)
Definition page {R} (caller : option uuid) (m : client R) (w : world) :
    world * R :=
  run (as_ caller) (λ _ _ _, None) (λ _ fileName, fileName) (lit "uuid")
      (lit "0.5") (λ _, lit "error") m w.
End Sample.

(** ** What every call of a handler satisfies *)

(** The predicate holds of every call the handler makes, on all answers of
    its surroundings. *)
Fixpoint every_call {R} (P : ∀ X, call X → Prop) (m : client R) : Prop :=
  match m with
  | Ret _ => True
  | Call c k => P _ c ∧ ∀ x, every_call P (k x)
  end.

(** A property of the values of every insert. *)
Definition inserts (P : report_values → Prop) (X : Type) (c : call X) : Prop :=
  match c with reports_insert v => P v | _ => True end.

(** ** ProtectedRoute *)

Module ProtectedRoute.
(** What the component returns: the skeleton, a redirect, or its children. *)
Inductive element :=
| Skeleton
| Navigate (to : text)
| Children.

(** [user], [role] and [loading] come from [useAuth()]; [allowedRoles] is
    the optional prop. An array, the empty one too, is truthy. *)
Definition ProtectedRoute (allowedRoles : option (list app_role))
    (user : option uuid) (role : option app_role) (loading : bool) : element :=
  if loading then Skeleton
  else match user with
       | None => Navigate (lit "/login")
       | Some _ =>
           match allowedRoles, role with
           | Some allowed, Some role =>
               if bool_decide (role ∈ allowed) then Children
               else Navigate (lit "/dashboard")
           | _, _ => Children
           end
       end.
End ProtectedRoute.

(** ** More of the small database *)

Module SampleForms.
(** A form in range, and a photo of the given size. *)
Definition pothole (image : option File) : SubmitReport.form :=
  SubmitReport.Form (lit " Pothole ") (lit "road_damage")
    (lit "pothole on Elm St") (lit "Elm St") image.

Definition photo (size : N) : File := MkFile (lit "elm.street.jpg") size.

(** A page opened by a caller whose uploads fail. *)
Definition page_offline {R} (caller : option uuid) (m : client R) (w : world) :
    world * R :=
  run (Sample.as_ caller) (λ _ _ _, Some (MkError (lit "offline")))
      (λ _ fileName, fileName) (lit "uuid") (lit "0.5") (λ _, lit "error") m w.
End SampleForms.

(** * Properties of the policies *)

Lemma holds_sql_eq {A} `{EqDecision A} (a : option A) (b : A) :
  holds (sql_eq a (Some b)) = true ↔ a = Some b.
Proof.
  destruct a as [x|]; simpl; [|split; discriminate].
  case_bool_decide; simpl; split; congruence.
Qed.

Lemma holds_sql_and (a b : option bool) :
  holds (sql_and a b) = true ↔ holds a = true ∧ holds b = true.
Proof. destruct a as [[]|], b as [[]|]; simpl; intuition discriminate. Qed.

Lemma holds_sql_or (a b : option bool) :
  holds (sql_or a b) = true ↔ holds a = true ∨ holds b = true.
Proof. destruct a as [[]|], b as [[]|]; simpl; intuition discriminate. Qed.

Lemma holds_Some (b : bool) : holds (Some b) = b.
Proof. by destruct b. Qed.

(** What the role predicate says of the table. *)
Lemma has_role_spec db u ro :
  has_role db u ro = true ↔
  ∃ r, r ∈ user_roles db ∧ u = Some (UserRoles.user_id r) ∧ UserRoles.role r = ro.
Proof.
  unfold has_role. rewrite existsb_exists. split.
  - intros (r & Hin & Hr). exists r. apply list_elem_of_In in Hin.
    apply holds_sql_and in Hr as [H1 H2].
    apply holds_sql_eq in H2. symmetry in H2. injection H2 as H2.
    destruct u as [u|]; [|discriminate].
    simpl in H1. case_bool_decide; [|discriminate]. by subst.
  - intros (r & Hin & -> & <-). exists r. split; [by apply list_elem_of_In|].
    simpl. by rewrite !bool_decide_eq_true_2.
Qed.

Lemma has_role_anonymous db ro : has_role db None ro = false.
Proof.
  apply not_true_is_false. rewrite has_role_spec.
  by intros (r & _ & ? & _).
Qed.

(** The policies each command of each table is checked against. *)
Lemma reports_select_policies :
  policies_for SELECT reports_policies = [Anyone_can_view_verified_reports].
Proof. reflexivity. Qed.

Lemma reports_insert_policies :
  policies_for INSERT reports_policies = [Users_can_create_reports].
Proof. reflexivity. Qed.

Lemma reports_update_policies :
  policies_for UPDATE reports_policies =
  [Users_can_update_their_own_pending_reports; Moderators_can_update_any_report].
Proof. reflexivity. Qed.

Lemma reports_delete_policies : policies_for DELETE reports_policies = [].
Proof. reflexivity. Qed.

Lemma user_roles_insert_policies :
  policies_for INSERT user_roles_policies =
  [Users_can_insert_their_own_role_on_signup].
Proof. reflexivity. Qed.

Lemma user_roles_update_policies : policies_for UPDATE user_roles_policies = [].
Proof. reflexivity. Qed.

Lemma user_roles_delete_policies : policies_for DELETE user_roles_policies = [].
Proof. reflexivity. Qed.

(** The SELECT policy of [reports]. *)
Lemma reports_select_spec uid db r :
  passes_using SELECT reports_policies uid db r = true ↔
  Reports.status r = verified ∨ uid = Some (Reports.user_id r) ∨
  has_role db uid MODERATOR = true.
Proof.
  unfold passes_using. rewrite reports_select_policies.
  unfold existsb, Anyone_can_view_verified_reports, using_qual, pol_using.
  rewrite orb_false_r, !holds_sql_or, holds_Some, !holds_sql_eq.
  rewrite (inj_iff Some). tauto.
Qed.

(** The INSERT policy of [reports]. *)
Lemma reports_insert_spec uid db r :
  passes_with_check INSERT reports_policies uid db r = true ↔
  uid = Some (Reports.user_id r).
Proof.
  unfold passes_with_check. rewrite reports_insert_policies.
  unfold existsb, Users_can_create_reports, with_check_qual, pol_with_check.
  by rewrite orb_false_r, holds_sql_eq.
Qed.

(** The two UPDATE policies of [reports], on the existing row. *)
Lemma reports_update_using_spec uid db r :
  passes_using UPDATE reports_policies uid db r = true ↔
  (uid = Some (Reports.user_id r) ∧ Reports.status r = pending) ∨
  has_role db uid MODERATOR = true.
Proof.
  unfold passes_using. rewrite reports_update_policies.
  unfold existsb, Users_can_update_their_own_pending_reports,
    Moderators_can_update_any_report, using_qual, pol_using.
  rewrite orb_false_r, orb_true_iff, holds_sql_and, holds_Some, !holds_sql_eq.
  rewrite (inj_iff Some). tauto.
Qed.

(** Neither UPDATE policy has a WITH CHECK clause, so the same expressions
    are checked on the new row. *)
Lemma reports_update_check_spec uid db r :
  passes_with_check UPDATE reports_policies uid db r =
  passes_using UPDATE reports_policies uid db r.
Proof. reflexivity. Qed.

(** The INSERT policy of [user_roles]. *)
Lemma user_roles_insert_spec uid db r :
  passes_with_check INSERT user_roles_policies uid db r = true ↔
  uid = Some (UserRoles.user_id r) ∧ UserRoles.role r = USER.
Proof.
  unfold passes_with_check. rewrite user_roles_insert_policies.
  unfold existsb, Users_can_insert_their_own_role_on_signup, with_check_qual,
    pol_with_check.
  rewrite orb_false_r, holds_sql_and, !holds_sql_eq.
  rewrite (inj_iff Some). tauto.
Qed.

(** [user_roles] has no UPDATE and no DELETE policy: no row qualifies. *)
Lemma user_roles_not_updatable uid db r :
  updatable user_roles_policies uid db r = false.
Proof.
  unfold updatable, passes_using at 2. rewrite user_roles_update_policies.
  apply andb_false_r.
Qed.

Lemma user_roles_not_deletable uid db r :
  deletable user_roles_policies uid db r = false.
Proof.
  unfold deletable, passes_using at 2. rewrite user_roles_delete_policies.
  apply andb_false_r.
Qed.

(** [reports] has no DELETE policy either. *)
Lemma reports_not_deletable uid db r :
  deletable reports_policies uid db r = false.
Proof.
  unfold deletable, passes_using at 2. rewrite reports_delete_policies.
  apply andb_false_r.
Qed.

(** A row the UPDATE policies let through is one the SELECT policy shows. *)
Lemma reports_update_implies_select uid db r :
  passes_using UPDATE reports_policies uid db r = true →
  passes_using SELECT reports_policies uid db r = true.
Proof.
  rewrite reports_update_using_spec, reports_select_spec.
  intros [[H _]|H]; auto.
Qed.

Lemma reports_updatable_spec uid db r :
  updatable reports_policies uid db r = true ↔
  (uid = Some (Reports.user_id r) ∧ Reports.status r = pending) ∨
  has_role db uid MODERATOR = true.
Proof.
  unfold updatable. rewrite andb_true_iff, <- reports_update_using_spec.
  split; [tauto|]. intros H. split; [by apply reports_update_implies_select|done].
Qed.

Lemma reports_admissible_spec uid db r :
  admissible reports_policies uid db r = true ↔
  (uid = Some (Reports.user_id r) ∧ Reports.status r = pending) ∨
  has_role db uid MODERATOR = true.
Proof.
  unfold admissible.
  rewrite andb_true_iff, reports_update_check_spec, <- reports_update_using_spec.
  split; [tauto|]. intros H. split; [done|by apply reports_update_implies_select].
Qed.
(** * Reading reports *)

Lemma select_reports_spec env db r :
  r ∈ select_reports env db ↔
  r ∈ reports db ∧
  (Reports.status r = verified ∨
   auth_uid env = Some (Reports.user_id r) ∨
   has_role db (auth_uid env) MODERATOR = true).
Proof.
  unfold select_reports.
  rewrite list_elem_of_filter, Is_true_true, reports_select_spec. tauto.
Qed.

(** C4. A read returns a row of [reports] exactly when the row is verified,
    or the caller owns it, or the caller holds the MODERATOR role. The result
    is a part of the table, in its order: a row the policy denies is left out
    of it, and no read yields an error. *)
Theorem read_report_iff env db :
  select_reports env db `sublist_of` reports db ∧
  ∀ r, r ∈ select_reports env db ↔
       r ∈ reports db ∧
       (Reports.status r = verified ∨
        auth_uid env = Some (Reports.user_id r) ∨
        has_role db (auth_uid env) MODERATOR = true).
Proof.
  split; [apply sublist_filter|]. intros r. apply select_reports_spec.
Qed.

(** A caller who is neither owner nor moderator gets nothing of a report
    that is not verified, and an anonymous caller sees the verified reports
    only. *)
Corollary read_denied_is_empty env db r :
  Reports.status r ≠ verified →
  auth_uid env ≠ Some (Reports.user_id r) →
  has_role db (auth_uid env) MODERATOR = false →
  r ∉ select_reports env db.
Proof.
  intros Hs Ho Hm. rewrite select_reports_spec, Hm. intros [_ [?|[?|?]]]; done.
Qed.

Corollary read_anonymous db now_ gen r :
  r ∈ select_reports (Env None now_ gen) db ↔
  r ∈ reports db ∧ Reports.status r = verified.
Proof.
  rewrite select_reports_spec. simpl. rewrite has_role_anonymous.
  split; [intros [? [?|[?|?]]]; done | tauto].
Qed.

(** * Constraints *)

Lemma user_roles_violation_None users rows :
  user_roles_violation users rows = None ↔
  NoDup (UserRoles.id <$> rows) ∧
  NoDup ((λ r, (UserRoles.user_id r, UserRoles.role r)) <$> rows) ∧
  ∀ r, r ∈ rows → UserRoles.user_id r ∈ users.
Proof.
  unfold user_roles_violation.
  repeat case_bool_decide; simpl; try (split; [discriminate|tauto]).
  destruct (forallb _ rows) eqn:Hfk; simpl.
  - split; [intros _|done]. repeat split; try done.
    intros r Hr. rewrite forallb_forall in Hfk.
    apply list_elem_of_In, Hfk in Hr. by apply bool_decide_eq_true in Hr.
  - split; [discriminate|]. intros (_ & _ & Hall). exfalso.
    apply not_true_iff_false in Hfk. apply Hfk, forallb_forall.
    intros r Hr. apply bool_decide_eq_true, Hall. by apply list_elem_of_In.
Qed.

Lemma reports_violation_None users rows :
  reports_violation users rows = None ↔
  NoDup (Reports.id <$> rows) ∧
  ∀ r, r ∈ rows →
    Reports.user_id r ∈ users ∧
    ∀ v, Reports.verified_by r = Some v → v ∈ users.
Proof.
  unfold reports_violation.
  case_bool_decide; simpl; [|split; [discriminate|tauto]].
  destruct (forallb _ rows) eqn:Hfk; simpl.
  - split; [intros _|done]. split; [done|].
    intros r Hr. rewrite forallb_forall in Hfk.
    apply list_elem_of_In, Hfk in Hr. apply andb_true_iff in Hr as [Hu Hv].
    apply bool_decide_eq_true in Hu. split; [done|].
    intros v Hrv. rewrite Hrv in Hv. by apply bool_decide_eq_true in Hv.
  - split; [discriminate|]. intros (_ & Hall). exfalso.
    apply not_true_iff_false in Hfk. apply Hfk, forallb_forall.
    intros r Hr. apply list_elem_of_In, Hall in Hr as [Hu Hv].
    apply andb_true_iff. split; [by apply bool_decide_eq_true|].
    destruct (Reports.verified_by r); [|done].
    apply bool_decide_eq_true. by apply Hv.
Qed.

(** A second row with the (user, role) pair of a stored one cannot enter
    [user_roles]. *)
Lemma user_roles_duplicate users rows r NEW :
  r ∈ rows →
  UserRoles.user_id NEW = UserRoles.user_id r →
  UserRoles.role NEW = UserRoles.role r →
  user_roles_violation users (rows ++ [NEW]) = Some unique_violation.
Proof.
  intros Hr Hu Hro. unfold user_roles_violation.
  case_bool_decide as Hid; simpl; [|done].
  case_bool_decide as Hpair; simpl; [|done]. exfalso.
  rewrite fmap_app in Hpair. apply NoDup_app in Hpair as (_ & Hdisj & _).
  apply (Hdisj (UserRoles.user_id r, UserRoles.role r)).
  - apply list_elem_of_fmap. by exists r.
  - simpl. rewrite Hu, Hro. apply list_elem_of_singleton. done.
Qed.

(** * Requests leave the database as it was when they fail *)

Lemma execute_Err env st db e :
  (execute env st db).2 = Err e → (execute env st db).1 = db.
Proof.
  unfold execute. destruct (perform env st db) as [[db' n]|e']; simpl; [discriminate|done].
Qed.

Lemma execute_insert_user_role env v db :
  execute env (InsertUserRole v) db =
  let NEW := user_roles_new_row env v in
  if passes_with_check INSERT user_roles_policies (auth_uid env) db NEW
  then match user_roles_violation (auth_users db) (user_roles db ++ [NEW]) with
       | Some e => (db, Err e)
       | None => (with_user_roles db (user_roles db ++ [NEW]), Ok 1)
       end
  else (db, Err insufficient_privilege).
Proof.
  unfold execute, perform, insert_user_role, user_roles_insert, store_user_roles.
  simpl. destruct (passes_with_check _ _ _ _ _); [|done].
  by destruct (user_roles_violation _ _).
Qed.

(** * Uniqueness of (user, role) *)

(** C8. When [user_roles] holds a row for a (user, role) pair, the insert of
    a second row with that pair fails with an integrity error, as the table
    owner's insert (the signup trigger) and as a client's insert that its
    policy lets through; a client's insert fails in any case, and the table
    stays as it was. *)
Theorem second_user_role_fails env db r v :
  r ∈ user_roles db →
  UserRoles.ins_user_id v = UserRoles.user_id r →
  default USER (UserRoles.ins_role v) = UserRoles.role r →
  (∃ e, user_roles_insert (user_roles_new_row env v) db = Err e ∧
        integrity_error e = true) ∧
  (execute env (InsertUserRole v) db).1 = db ∧
  (∃ e, (execute env (InsertUserRole v) db).2 = Err e ∧
        (passes_with_check INSERT user_roles_policies (auth_uid env) db
           (user_roles_new_row env v) = true →
         integrity_error e = true)).
Proof.
  intros Hr Hu Hro.
  assert (user_roles_violation (auth_users db)
            (user_roles db ++ [user_roles_new_row env v]) = Some unique_violation)
    as Hdup by (by apply (user_roles_duplicate _ _ r)).
  split; [|split].
  - exists unique_violation. split; [|done].
    unfold user_roles_insert, store_user_roles. by rewrite Hdup.
  - rewrite execute_insert_user_role. simpl. rewrite Hdup.
    by destruct (passes_with_check _ _ _ _ _).
  - rewrite execute_insert_user_role. simpl. rewrite Hdup.
    destruct (passes_with_check _ _ _ _ _); eauto.
Qed.

(** Alice already holds USER, and inserts it once more. *)
Lemma second_user_role_fails_witness :
  let env := Sample.as_ (Some Sample.alice) in
  let v := UserRoles.Values None Sample.alice None None in
  let r := UserRoles.Row 10 Sample.alice USER 0%Z in
  r ∈ user_roles Sample.db0 ∧
  UserRoles.ins_user_id v = UserRoles.user_id r ∧
  default USER (UserRoles.ins_role v) = UserRoles.role r ∧
  (∃ e, user_roles_insert (user_roles_new_row env v) Sample.db0 = Err e ∧
        integrity_error e = true) ∧
  (execute env (InsertUserRole v) Sample.db0).1 = Sample.db0 ∧
  (∃ e, (execute env (InsertUserRole v) Sample.db0).2 = Err e ∧
        (passes_with_check INSERT user_roles_policies (auth_uid env) Sample.db0
           (user_roles_new_row env v) = true →
         integrity_error e = true)).
Proof.
  intros env v r.
  assert (r ∈ user_roles Sample.db0) as Hr by (vm_compute; apply list_elem_of_here).
  split; [exact Hr|]. split; [reflexivity|]. split; [reflexivity|].
  apply (second_user_role_fails env Sample.db0 r v Hr); reflexivity.
Defined.

(** * Updates *)

Section UpdateRows.
Context {row : Type} (ps : list (policy row)) (uid : option uuid) (db : Db).
Context (where_ : row → bool) (new : row → row).

Local Abbreviation hit := (λ r, where_ r && updatable ps uid db r).

Lemma update_rows_Ok rows rows' n :
  update_rows ps uid db where_ new rows = Ok (rows', n) →
  rows' = (λ r, if hit r then new r else r) <$> rows ∧
  n = length (filter (λ r, hit r) rows) ∧
  ∀ r, r ∈ rows → hit r = true → admissible ps uid db (new r) = true.
Proof.
  unfold update_rows.
  destruct (forallb _ rows) eqn:Hall; [|discriminate].
  intros [= <- <-]. repeat split.
  intros r Hr Hhit. rewrite forallb_forall in Hall.
  apply list_elem_of_In, Hall in Hr. simpl in Hhit. by rewrite Hhit in Hr.
Qed.

Lemma update_rows_Err rows e :
  update_rows ps uid db where_ new rows = Err e →
  e = insufficient_privilege ∧
  ∃ r, r ∈ rows ∧ hit r = true ∧ admissible ps uid db (new r) = false.
Proof.
  unfold update_rows.
  destruct (forallb _ rows) eqn:Hall; [discriminate|].
  intros [= <-]. split; [done|].
  induction rows as [|x rows IH]; [discriminate|]. simpl in Hall.
  apply andb_false_iff in Hall as [Hx|Hrest].
  - exists x. apply orb_false_iff in Hx as [Hh Ha].
    apply negb_false_iff in Hh. split; [apply list_elem_of_here|done].
  - destruct (IH Hrest) as (r & Hr & ?). exists r.
    split; [by apply list_elem_of_further|done].
Qed.

(** When nothing is hit the statement succeeds and updates no row. *)
Lemma update_rows_no_hit rows :
  (∀ r, r ∈ rows → hit r = false) →
  update_rows ps uid db where_ new rows = Ok (rows, 0).
Proof.
  simpl. intros Hno. unfold update_rows.
  assert (forallb (λ r, negb (where_ r && updatable ps uid db r)
                        || admissible ps uid db (new r)) rows = true) as ->.
  { apply forallb_forall. intros r Hr%list_elem_of_In. by rewrite Hno. }
  f_equal. f_equal.
  - rewrite <- (list_fmap_id rows) at 2. apply Forall_fmap_ext_1.
    apply Forall_forall. intros r Hr. by rewrite Hno.
  - induction rows as [|x rows IH]; [done|].
    rewrite filter_cons_False.
    + apply IH. intros r Hr. apply Hno. by apply list_elem_of_further.
    + rewrite Hno; [by intros []|apply list_elem_of_here].
Qed.
End UpdateRows.

Lemma execute_update_report env target s db :
  execute env (UpdateReport target s) db =
  match update_rows reports_policies (auth_uid env) db
          (λ r, bool_decide (Reports.id r = target))
          (λ r, update_updated_at_column (now env) (Reports.apply_set s r))
          (reports db) with
  | Err e => (db, Err e)
  | Ok (rows, n) =>
      match reports_violation (auth_users db) rows with
      | Some e => (db, Err e)
      | None => (with_reports db rows, Ok n)
      end
  end.
Proof.
  unfold execute, perform, update_report, store_reports.
  destruct (update_rows _ _ _ _ _ _) as [[rows n]|e]; [|done].
  by destruct (reports_violation _ _).
Qed.

(** What a successful UPDATE of reports leaves at each position of the
    table. *)
Lemma update_report_lookup env target s db db' n i r :
  execute env (UpdateReport target s) db = (db', Ok n) →
  reports db !! i = Some r →
  reports db' !! i =
    Some (if bool_decide (Reports.id r = target)
             && updatable reports_policies (auth_uid env) db r
          then update_updated_at_column (now env) (Reports.apply_set s r)
          else r) ∧
  (bool_decide (Reports.id r = target)
   && updatable reports_policies (auth_uid env) db r = true →
   admissible reports_policies (auth_uid env) db
     (update_updated_at_column (now env) (Reports.apply_set s r)) = true).
Proof.
  rewrite execute_update_report.
  destruct (update_rows _ _ _ _ _ _) as [[rows k]|e] eqn:Hup; [|discriminate].
  destruct (reports_violation _ _); [discriminate|].
  intros [= <- <-] Hi. apply update_rows_Ok in Hup as (-> & _ & Hadm). split.
  - simpl. by rewrite list_lookup_fmap, Hi.
  - intros Hhit. apply Hadm; [|done]. by eapply list_elem_of_lookup_2.
Qed.

(** * The [updated_at] trigger *)

(** C9. When an update of a report row is permitted and applied, the stored
    row is the requested new row with [updated_at] set to the time of the
    request, whatever [updated_at] the client supplied; the trigger changes
    no other column of the new row. *)
Theorem updated_at_forced env target s db db' n i r :
  execute env (UpdateReport target s) db = (db', Ok n) →
  reports db !! i = Some r →
  Reports.id r = target →
  updatable reports_policies (auth_uid env) db r = true →
  let NEW := Reports.apply_set s r in
  let stored := update_updated_at_column (now env) NEW in
  reports db' !! i = Some stored ∧
  Reports.updated_at stored = now env ∧
  Reports.id stored = Reports.id NEW ∧
  Reports.title stored = Reports.title NEW ∧
  Reports.category stored = Reports.category NEW ∧
  Reports.description stored = Reports.description NEW ∧
  Reports.image_url stored = Reports.image_url NEW ∧
  Reports.location stored = Reports.location NEW ∧
  Reports.status stored = Reports.status NEW ∧
  Reports.user_id stored = Reports.user_id NEW ∧
  Reports.verified_by stored = Reports.verified_by NEW ∧
  Reports.verified_at stored = Reports.verified_at NEW ∧
  Reports.created_at stored = Reports.created_at NEW.
Proof.
  intros Hex Hi Hid Hupd NEW stored.
  destruct (update_report_lookup _ _ _ _ _ _ _ _ Hex Hi) as [Hlook _].
  rewrite Hupd, bool_decide_eq_true_2 in Hlook by done.
  split; [exact Hlook|]. repeat split.
Qed.

(** Bob the moderator edits the title of Carol's rejected report and
    supplies an [updated_at] of his own. *)
Lemma updated_at_forced_witness :
  let env := Sample.as_ (Some Sample.bob) in
  let s := Reports.Set_ None (Some (lit "Hole")) None None None None None None
             None None None (Some 0%Z) in
  let r := Sample.report 102 rejected Sample.carol in
  let stored := update_updated_at_column (now env) (Reports.apply_set s r) in
  reports Sample.db0 !! 2 = Some r ∧
  updatable reports_policies (auth_uid env) Sample.db0 r = true ∧
  reports (execute env (UpdateReport 102 s) Sample.db0).1 !! 2 = Some stored ∧
  Reports.updated_at stored = 9%Z ∧
  Reports.title stored = lit "Hole".
Proof.
  intros env s r stored.
  assert (∃ db', execute env (UpdateReport 102 s) Sample.db0 = (db', Ok 1))
    as [db' Hex] by (eexists; vm_compute; reflexivity).
  rewrite Hex. simpl.
  assert (reports Sample.db0 !! 2 = Some r) as Hi by reflexivity.
  assert (updatable reports_policies (auth_uid env) Sample.db0 r = true)
    as Hupd by (vm_compute; reflexivity).
  destruct (updated_at_forced env 102 s Sample.db0 db' 1 2 r Hex Hi eq_refl Hupd)
    as (H1 & H2 & _ & H3 & _).
  repeat split; assumption.
Defined.

(** * Roles *)

Lemma filter_none {A} (P : A → Prop) `{∀ x, Decision (P x)} (l : list A) :
  (∀ x, x ∈ l → ¬ P x) → filter P l = [].
Proof.
  induction l as [|x l IH]; intros Hno; [done|].
  rewrite filter_cons_False by (apply Hno, list_elem_of_here).
  apply IH. intros y Hy. apply Hno. by apply list_elem_of_further.
Qed.

Lemma filter_all {A} (P : A → Prop) `{∀ x, Decision (P x)} (l : list A) :
  (∀ x, x ∈ l → P x) → filter P l = l.
Proof.
  induction l as [|x l IH]; intros Hall; [done|].
  rewrite filter_cons_True by (apply Hall, list_elem_of_here).
  f_equal. apply IH. intros y Hy. apply Hall. by apply list_elem_of_further.
Qed.

Lemma execute_sign_up env new_id db :
  execute env (SignUp new_id) db =
  let NEW := UserRoles.Row (gen_random_uuid env) new_id USER (now env) in
  if bool_decide (new_id ∈ auth_users db) then (db, Err unique_violation)
  else match user_roles_violation ({[new_id]} ∪ auth_users db)
               (user_roles db ++ [NEW]) with
       | Some e => (db, Err e)
       | None => (MkDb ({[new_id]} ∪ auth_users db) (user_roles db ++ [NEW])
                       (reports db), Ok 1)
       end.
Proof.
  unfold execute, perform, insert_auth_user, handle_new_user, user_roles_insert,
    store_user_roles.
  simpl. case_bool_decide; [done|]. simpl.
  by destruct (user_roles_violation _ _).
Qed.

(** A request leaves [user_roles] as it was or adds one row of role USER. *)
Lemma user_roles_step env st db :
  user_roles (execute env st db).1 = user_roles db ∨
  ∃ r, user_roles (execute env st db).1 = user_roles db ++ [r] ∧
       UserRoles.role r = USER.
Proof.
  destruct st as [new_id|v|where_ s|where_|v|target s|where_].
  - rewrite execute_sign_up. simpl. case_bool_decide; [by left|].
    destruct (user_roles_violation _ _); [by left|]. right. by eexists.
  - rewrite execute_insert_user_role. simpl.
    destruct (passes_with_check _ _ _ _ _) eqn:Hpol; [|by left].
    destruct (user_roles_violation _ _); [by left|]. right.
    eexists. split; [done|]. by apply user_roles_insert_spec in Hpol as [_ ?].
  - left. unfold execute, perform, update_user_roles.
    rewrite update_rows_no_hit.
    + unfold store_user_roles.
      by destruct (user_roles_violation _ _).
    + intros r _. rewrite user_roles_not_updatable. apply andb_false_r.
  - left. unfold execute, perform, delete_user_roles, delete_rows. simpl.
    apply filter_all. intros r _.
    rewrite user_roles_not_deletable, andb_false_r. done.
  - left. unfold execute, perform, insert_report, store_reports.
    destruct (passes_with_check _ _ _ _ _); [|done].
    by destruct (reports_violation _ _).
  - left. rewrite execute_update_report.
    destruct (update_rows _ _ _ _ _ _) as [[rows n]|e]; [|done].
    by destruct (reports_violation _ _).
  - left. unfold execute, perform, delete_reports. by destruct (delete_rows _ _ _ _ _).
Qed.

Lemma has_role_step env st db u :
  has_role (execute env st db).1 u MODERATOR = true →
  has_role db u MODERATOR = true.
Proof.
  rewrite !has_role_spec. intros (r & Hr & Hu & Hro).
  destruct (user_roles_step env st db) as [Heq|(r' & Heq & Hr')];
    rewrite Heq in Hr; [by exists r|].
  apply elem_of_app in Hr as [Hr|Hr%list_elem_of_singleton]; [by exists r|].
  subst r'. congruence.
Qed.

(** No sequence of requests makes a moderator. *)
Lemma has_role_execute_all reqs db u :
  has_role (execute_all reqs db) u MODERATOR = true →
  has_role db u MODERATOR = true.
Proof.
  revert db. induction reqs as [|[env st] reqs IH]; intros db; [done|].
  simpl. intros H. by eapply has_role_step, IH.
Qed.

(** C7. A newly registered identity holds exactly one row of [user_roles],
    with role USER, and its registration succeeds when its id and the
    generated row id are new. No sequence of client requests gives a caller
    the MODERATOR role, and a client's insert into [user_roles] is accepted
    only when [user_id] is the caller and the role is USER. *)
Theorem user_role_grants db :
  consistent db →
  (∀ env new_id db' n,
     execute env (SignUp new_id) db = (db', Ok n) →
     filter (λ r, UserRoles.user_id r = new_id) (user_roles db') =
       [UserRoles.Row (gen_random_uuid env) new_id USER (now env)]) ∧
  (∀ env new_id,
     new_id ∉ auth_users db →
     gen_random_uuid env ∉ UserRoles.id <$> user_roles db →
     ∃ db', execute env (SignUp new_id) db = (db', Ok 1)) ∧
  (∀ reqs u,
     has_role (execute_all reqs db) u MODERATOR = true →
     has_role db u MODERATOR = true) ∧
  (∀ env v db' n,
     execute env (InsertUserRole v) db = (db', Ok n) →
     auth_uid env = Some (UserRoles.ins_user_id v) ∧
     default USER (UserRoles.ins_role v) = USER).
Proof.
  intros [Hur _]. apply user_roles_violation_None in Hur as (Hids & Hpairs & Hfk).
  split; [|split; [|split]].
  - intros env new_id db' n. rewrite execute_sign_up. simpl.
    case_bool_decide as Hnew; [discriminate|].
    destruct (user_roles_violation _ _); [discriminate|]. intros [= <- <-].
    simpl. rewrite filter_app, filter_none, filter_cons_True; try done.
    intros r Hr Heq. apply Hnew. rewrite <- Heq. by apply Hfk.
  - intros env new_id Hnew Hgen. rewrite execute_sign_up. simpl.
    rewrite bool_decide_eq_false_2 by done.
    match goal with |- context [user_roles_violation ?u ?rows] =>
      assert (user_roles_violation u rows = None) as -> end; [|by eexists].
    apply user_roles_violation_None. rewrite !fmap_app. simpl. split; [|split].
    + apply NoDup_app. split; [done|]. split; [|apply NoDup_singleton].
      intros x Hx ->%list_elem_of_singleton. done.
    + apply NoDup_app. split; [done|]. split; [|apply NoDup_singleton].
      intros x Hx ->%list_elem_of_singleton.
      apply list_elem_of_fmap in Hx as (r & Heq & Hr).
      injection Heq as Hu _. apply Hnew. rewrite Hu. by apply Hfk.
    + intros r [Hr|Hr%list_elem_of_singleton]%elem_of_app.
      * apply elem_of_union_r. by apply Hfk.
      * subst r. apply elem_of_union_l, elem_of_singleton. done.
  - intros reqs u. apply has_role_execute_all.
  - intros env v db' n. rewrite execute_insert_user_role. simpl.
    destruct (passes_with_check _ _ _ _ _) eqn:Hpol; [|discriminate].
    intros _. by apply user_roles_insert_spec in Hpol.
Qed.

(** Dave registers with id 7. *)
Lemma user_role_grants_witness :
  consistent Sample.db0 ∧
  filter (λ r, UserRoles.user_id r = 7%N)
    (user_roles (execute (Sample.as_ None) (SignUp 7) Sample.db0).1) =
  [UserRoles.Row 500 7 USER 9%Z].
Proof.
  assert (consistent Sample.db0) as Hc by (split; vm_compute; reflexivity).
  split; [exact Hc|].
  destruct (user_role_grants Sample.db0 Hc) as (Hone & _).
  apply (Hone (Sample.as_ None) 7%N _ 1). vm_compute. reflexivity.
Defined.

(** * Updates of one report *)

(** In a table with a primary key the WHERE clause [key = k] hits one row. *)
Section SingleRow.
Context {row : Type} (ps : list (policy row)) (uid : option uuid) (db : Db).
Context (key : row → N) (new : row → row).

Lemma update_rows_other_keys k (rows : list row) :
  (∀ x, x ∈ rows → key x ≠ k) →
  forallb (λ x, negb (bool_decide (key x = k) && updatable ps uid db x)
                || admissible ps uid db (new x)) rows = true ∧
  (λ x, if bool_decide (key x = k) && updatable ps uid db x
        then new x else x) <$> rows = rows ∧
  filter (λ x, bool_decide (key x = k) && updatable ps uid db x) rows = [].
Proof.
  intros Hne. induction rows as [|x rows IH]; [done|].
  destruct IH as (IH1 & IH2 & IH3).
  { intros y Hy. apply Hne. by apply list_elem_of_further. }
  assert (bool_decide (key x = k) = false) as Hx.
  { apply bool_decide_eq_false_2, Hne, list_elem_of_here. }
  rewrite fmap_cons, filter_cons, IH2, IH3. cbn [forallb].
  rewrite IH1, Hx. done.
Qed.

Lemma update_rows_single (rows : list row) i r :
  NoDup (key <$> rows) →
  rows !! i = Some r →
  update_rows ps uid db (λ x, bool_decide (key x = key r)) new rows =
  if updatable ps uid db r
  then if admissible ps uid db (new r)
       then Ok (<[i:=new r]> rows, 1)
       else Err insufficient_privilege
  else Ok (rows, 0).
Proof.
  intros Hnd Hi.
  apply list_elem_of_split_length in Hi as (l1 & l2 & -> & ->).
  rewrite fmap_app, fmap_cons in Hnd.
  apply NoDup_app in Hnd as (_ & Hl & [Hr _]%NoDup_cons).
  destruct (update_rows_other_keys (key r) l1) as (F1 & M1 & C1).
  { intros x Hx Heq. apply (Hl (key x)).
    - by apply list_elem_of_fmap_2.
    - rewrite Heq. apply list_elem_of_here. }
  destruct (update_rows_other_keys (key r) l2) as (F2 & M2 & C2).
  { intros x Hx Heq. apply Hr. rewrite <- Heq. by apply list_elem_of_fmap_2. }
  unfold update_rows.
  rewrite forallb_app, fmap_app, filter_app, fmap_cons, filter_cons.
  cbn [forallb].
  rewrite F1, F2, M1, M2, C1, C2, bool_decide_eq_true_2 by done. simpl.
  rewrite <- (Nat.add_0_r (length l1)), insert_app_r. simpl.
  destruct (updatable ps uid db r); simpl; [|done].
  rewrite andb_true_r. by destruct (admissible ps uid db (new r)).
Qed.
End SingleRow.

Lemma with_reports_same db : with_reports db (reports db) = db.
Proof. by destruct db. Qed.

(** The outcome of an UPDATE of the report at position [i], by its id. *)
Lemma execute_update_single env s db i r :
  consistent db →
  reports db !! i = Some r →
  let NEW := update_updated_at_column (now env) (Reports.apply_set s r) in
  execute env (UpdateReport (Reports.id r) s) db =
  if updatable reports_policies (auth_uid env) db r
  then if admissible reports_policies (auth_uid env) db NEW
       then match reports_violation (auth_users db) (<[i:=NEW]> (reports db)) with
            | Some e => (db, Err e)
            | None => (with_reports db (<[i:=NEW]> (reports db)), Ok 1)
            end
       else (db, Err insufficient_privilege)
  else (db, Ok 0).
Proof.
  intros [_ Hc] Hi NEW. rewrite execute_update_report.
  pose proof Hc as (Hnd & _)%reports_violation_None.
  rewrite (update_rows_single _ _ _ Reports.id _ _ i r Hnd Hi).
  destruct (updatable _ _ _ _).
  - by destruct (admissible _ _ _ _).
  - by rewrite Hc, with_reports_same.
Qed.

(** Replacing a row by one with the same keys keeps the constraints. *)
Lemma reports_violation_insert users rows i r NEW :
  rows !! i = Some r →
  Reports.id NEW = Reports.id r →
  Reports.user_id NEW = Reports.user_id r →
  Reports.verified_by NEW = Reports.verified_by r →
  reports_violation users rows = None →
  reports_violation users (<[i:=NEW]> rows) = None.
Proof.
  intros Hi Hid Hu Hv [Hnd Hfk]%reports_violation_None.
  apply reports_violation_None. split.
  - rewrite list_fmap_insert, list_insert_id; [done|].
    by rewrite list_lookup_fmap, Hi, Hid.
  - intros x [j Hj]%list_elem_of_lookup_1.
    apply list_lookup_insert_Some in Hj as [(-> & -> & _)|[_ Hj]].
    + rewrite Hu, Hv. by eapply Hfk, list_elem_of_lookup_2.
    + by eapply Hfk, list_elem_of_lookup_2.
Qed.

(** * Updates by the owner *)

Lemma owner_updatable env db r :
  auth_uid env = Some (Reports.user_id r) →
  has_role db (auth_uid env) MODERATOR = false →
  updatable reports_policies (auth_uid env) db r =
  bool_decide (Reports.status r = pending).
Proof.
  intros Ho Hm. apply eq_true_iff_eq.
  rewrite reports_updatable_spec, bool_decide_eq_true, Hm.
  split; [intros [[_ ?]|?]; done|by left].
Qed.

Lemma owner_admissible env db r NEW :
  auth_uid env = Some (Reports.user_id r) →
  has_role db (auth_uid env) MODERATOR = false →
  admissible reports_policies (auth_uid env) db NEW =
  bool_decide (Reports.user_id NEW = Reports.user_id r ∧
               Reports.status NEW = pending).
Proof.
  intros Ho Hm. apply eq_true_iff_eq.
  rewrite reports_admissible_spec, bool_decide_eq_true, Hm, Ho.
  split.
  - intros [[[= ->] ?]|?]; done.
  - intros [-> ?]. by left.
Qed.

(** C5 (amended). An update of a report by its owner, who does not hold
    MODERATOR: while the report is pending, the request succeeds when the new
    row is still the caller's and still pending (and breaks no key
    constraint), and the row is replaced; a new row with another owner or
    another status fails the request with a policy error. When the report is
    not pending the request updates nothing: the database stays as it was
    and zero rows are reported, without an error. *)
Theorem owner_update env s db i r :
  consistent db →
  reports db !! i = Some r →
  auth_uid env = Some (Reports.user_id r) →
  has_role db (auth_uid env) MODERATOR = false →
  let NEW := update_updated_at_column (now env) (Reports.apply_set s r) in
  let rows := <[i:=NEW]> (reports db) in
  (Reports.status r = pending →
   Reports.user_id NEW = Reports.user_id r →
   Reports.status NEW = pending →
   reports_violation (auth_users db) rows = None →
   execute env (UpdateReport (Reports.id r) s) db = (with_reports db rows, Ok 1)) ∧
  (Reports.status r = pending →
   Reports.user_id NEW ≠ Reports.user_id r ∨ Reports.status NEW ≠ pending →
   execute env (UpdateReport (Reports.id r) s) db =
     (db, Err insufficient_privilege)) ∧
  (Reports.status r ≠ pending →
   execute env (UpdateReport (Reports.id r) s) db = (db, Ok 0)).
Proof.
  intros Hc Hi Ho Hm NEW rows.
  pose proof (execute_update_single env s db i r Hc Hi) as Hex. simpl in Hex.
  rewrite (owner_updatable env db r Ho Hm) in Hex.
  rewrite (owner_admissible env db r _ Ho Hm) in Hex.
  fold NEW in Hex. fold rows in Hex.
  split; [|split].
  - intros Hp Hu Hs Hk. rewrite Hex, Hk.
    by rewrite !bool_decide_eq_true_2.
  - intros Hp Hbad. rewrite Hex, bool_decide_eq_true_2 by done.
    rewrite bool_decide_eq_false_2; [done|]. intros [? ?]. by destruct Hbad.
  - intros Hp. by rewrite Hex, bool_decide_eq_false_2.
Qed.

(** Alice corrects the title of her pending report. *)
Lemma owner_update_witness :
  let env := Sample.as_ (Some Sample.alice) in
  let s := Reports.Set_ None (Some (lit "Hole")) None None None None None None
             None None None None in
  let r := Sample.report 100 pending Sample.alice in
  let NEW := update_updated_at_column (now env) (Reports.apply_set s r) in
  consistent Sample.db0 ∧
  reports Sample.db0 !! 0 = Some r ∧
  auth_uid env = Some (Reports.user_id r) ∧
  has_role Sample.db0 (auth_uid env) MODERATOR = false ∧
  execute env (UpdateReport 100 s) Sample.db0 =
    (with_reports Sample.db0 (<[0:=NEW]> (reports Sample.db0)), Ok 1).
Proof.
  intros env s r NEW.
  assert (consistent Sample.db0) as Hc by (split; vm_compute; reflexivity).
  assert (has_role Sample.db0 (auth_uid env) MODERATOR = false) as Hm
    by (vm_compute; reflexivity).
  split; [exact Hc|]. split; [reflexivity|]. split; [reflexivity|].
  split; [exact Hm|].
  destruct (owner_update env s Sample.db0 0 r Hc eq_refl eq_refl Hm) as (Hok & _).
  apply Hok; reflexivity.
Defined.

(** C5, as the claim states it, fails: Alice owns the pending report 100 and
    is no moderator, and her request to set its status is refused. *)
Lemma owner_update_counterexample :
  let env := Sample.as_ (Some Sample.alice) in
  reports Sample.db0 !! 0 = Some (Sample.report 100 pending Sample.alice) ∧
  has_role Sample.db0 (auth_uid env) MODERATOR = false ∧
  execute env (UpdateReport 100 (Reports.set_status_to verified)) Sample.db0 =
    (Sample.db0, Err insufficient_privilege).
Proof. intros env. split; [reflexivity|]. split; vm_compute; reflexivity. Qed.

(** * Status transitions *)

Lemma execute_insert_report env v db :
  execute env (InsertReport v) db =
  let NEW := reports_new_row env v in
  if passes_with_check INSERT reports_policies (auth_uid env) db NEW
  then match reports_violation (auth_users db) (reports db ++ [NEW]) with
       | Some e => (db, Err e)
       | None => (with_reports db (reports db ++ [NEW]), Ok 1)
       end
  else (db, Err insufficient_privilege).
Proof.
  unfold execute, perform, insert_report, store_reports. simpl.
  destruct (passes_with_check _ _ _ _ _); [|done].
  by destruct (reports_violation _ _).
Qed.

(** The status of a created report: the supplied one, or the default. *)
Lemma insert_report_status env v db db' n :
  execute env (InsertReport v) db = (db', Ok n) →
  reports db' = reports db ++ [reports_new_row env v] ∧
  Reports.status (reports_new_row env v) = default pending (Reports.ins_status v) ∧
  auth_uid env = Some (Reports.ins_user_id v).
Proof.
  rewrite execute_insert_report. simpl.
  destruct (passes_with_check _ _ _ _ _) eqn:Hpol; [|discriminate].
  destruct (reports_violation _ _); [discriminate|]. intros [= <- _].
  by apply reports_insert_spec in Hpol.
Qed.

(** Apart from UPDATE, a request keeps every stored report in its place. *)
Lemma reports_kept env st db i r :
  (∀ target s, st ≠ UpdateReport target s) →
  reports db !! i = Some r →
  reports (execute env st db).1 !! i = Some r.
Proof.
  intros Hst Hi. pose proof (lookup_lt_Some _ _ _ Hi) as Hlt.
  destruct st as [new_id|v|where_ s|where_|v|target s|where_].
  - rewrite execute_sign_up. simpl. case_bool_decide; [done|].
    by destruct (user_roles_violation _ _).
  - rewrite execute_insert_user_role. simpl.
    destruct (passes_with_check _ _ _ _ _); [|done].
    by destruct (user_roles_violation _ _).
  - unfold execute, perform, update_user_roles.
    destruct (update_rows _ _ _ _ _ _) as [[rows n]|e]; [|done].
    unfold store_user_roles. by destruct (user_roles_violation _ _).
  - done.
  - rewrite execute_insert_report. simpl.
    destruct (passes_with_check _ _ _ _ _); [|done].
    destruct (reports_violation _ _); [done|]. simpl.
    by rewrite lookup_app_l.
  - by destruct (Hst target s).
  - unfold execute, perform, delete_reports, delete_rows. simpl.
    rewrite filter_all; [done|]. intros x _.
    by rewrite reports_not_deletable, andb_false_r.
Qed.

(** Only a moderator's request changes the status of a stored report. *)
Lemma status_change_by_moderator env st db i r r' :
  reports db !! i = Some r →
  reports (execute env st db).1 !! i = Some r' →
  Reports.status r' ≠ Reports.status r →
  has_role db (auth_uid env) MODERATOR = true.
Proof.
  intros Hi Hi' Hne.
  destruct (has_role db (auth_uid env) MODERATOR) eqn:Hm; [done|]. exfalso.
  assert (∃ target s, st = UpdateReport target s) as (target & s & ->).
  { destruct st; eauto;
      (rewrite (reports_kept _ _ _ i r) in Hi'; [congruence|done|done]). }
  destruct (execute env (UpdateReport target s) db) as [db' [n|e]] eqn:Hex.
  - destruct (update_report_lookup _ _ _ _ _ _ _ _ Hex Hi) as [Hlook Hadm].
    simpl in Hi'. rewrite Hlook in Hi'. injection Hi' as <-.
    destruct (bool_decide _ && updatable _ _ _ _) eqn:Hhit; [|done].
    specialize (Hadm eq_refl).
    apply andb_true_iff in Hhit as [_ Hupd].
    apply reports_updatable_spec in Hupd as [[_ Hp]|?]; [|congruence].
    apply reports_admissible_spec in Hadm as [[_ Hp']|?]; [|congruence].
    congruence.
  - pose proof (execute_Err env (UpdateReport target s) db e) as Hsame.
    rewrite Hex in Hsame. simpl in Hsame, Hi'. rewrite Hsame in Hi' by done.
    congruence.
Qed.

(** A moderator's request to set the status is applied whatever the status
    of the report is. *)
Lemma moderator_sets_status env db i r s' :
  consistent db →
  reports db !! i = Some r →
  has_role db (auth_uid env) MODERATOR = true →
  let NEW := update_updated_at_column (now env)
               (Reports.apply_set (Reports.set_status_to s') r) in
  execute env (UpdateReport (Reports.id r) (Reports.set_status_to s')) db =
    (with_reports db (<[i:=NEW]> (reports db)), Ok 1) ∧
  Reports.status NEW = s'.
Proof.
  intros Hc Hi Hm NEW. split; [|done].
  rewrite (execute_update_single env _ db i r Hc Hi). fold NEW.
  assert (updatable reports_policies (auth_uid env) db r = true) as ->
    by (apply reports_updatable_spec; by right).
  assert (admissible reports_policies (auth_uid env) db NEW = true) as ->
    by (apply reports_admissible_spec; by right).
  destruct Hc as [_ Hc].
  by rewrite (reports_violation_insert _ _ i r NEW Hi).
Qed.

(** C1 (amended). A report created without a status starts at pending.
    The status of a stored report changes only by a request of a caller who
    holds MODERATOR. A moderator's request to set a status is applied on a
    report in any status, terminal or not, and to any status: re-issuing
    rejected on a rejected report succeeds. The moderation page offers
    verify and reject on pending reports only. *)
Theorem status_transitions db :
  consistent db →
  (∀ env v db' n,
     Reports.ins_status v = None →
     execute env (InsertReport v) db = (db', Ok n) →
     ∃ r, reports db' = reports db ++ [r] ∧ Reports.status r = pending) ∧
  (∀ env st i r r',
     reports db !! i = Some r →
     reports (execute env st db).1 !! i = Some r' →
     Reports.status r' ≠ Reports.status r →
     has_role db (auth_uid env) MODERATOR = true) ∧
  (∀ env i r s',
     reports db !! i = Some r →
     has_role db (auth_uid env) MODERATOR = true →
     let NEW := update_updated_at_column (now env)
                  (Reports.apply_set (Reports.set_status_to s') r) in
     execute env (UpdateReport (Reports.id r) (Reports.set_status_to s')) db =
       (with_reports db (<[i:=NEW]> (reports db)), Ok 1) ∧
     Reports.status NEW = s') ∧
  (∀ status, Moderate.buttons status ≠ [] ↔ status = lit "pending").
Proof.
  intros Hc. split; [|split; [|split]].
  - intros env v db' n Hnone Hex.
    apply insert_report_status in Hex as (Hrows & Hst & _).
    rewrite Hnone in Hst. eauto.
  - intros env st i r r'. apply status_change_by_moderator.
  - intros env i r s'. by apply moderator_sets_status.
  - intros status. unfold Moderate.buttons. case_bool_decide; split; done.
Qed.

(** Bob the moderator verifies Alice's pending report. *)
Lemma status_transitions_witness :
  let env := Sample.as_ (Some Sample.bob) in
  let r := Sample.report 100 pending Sample.alice in
  let NEW := update_updated_at_column (now env)
               (Reports.apply_set (Reports.set_status_to verified) r) in
  consistent Sample.db0 ∧
  execute env (UpdateReport 100 (Reports.set_status_to verified)) Sample.db0 =
    (with_reports Sample.db0 (<[0:=NEW]> (reports Sample.db0)), Ok 1) ∧
  Reports.status NEW = verified.
Proof.
  intros env r NEW.
  assert (consistent Sample.db0) as Hc by (split; vm_compute; reflexivity).
  split; [exact Hc|].
  destruct (status_transitions Sample.db0 Hc) as (_ & _ & Hmod & _).
  apply (Hmod env 0 r verified); [reflexivity|vm_compute; reflexivity].
Defined.

(** C1, as the claim states it, fails: Carol's report 102 is rejected, and
    Bob the moderator re-issues rejected on it with success, from the page
    as well, and then moves it back to pending. *)
Lemma status_transitions_counterexample :
  let env := Sample.as_ (Some Sample.bob) in
  reports Sample.db0 !! 2 = Some (Sample.report 102 rejected Sample.carol) ∧
  (execute env (UpdateReport 102 (Reports.set_status_to rejected)) Sample.db0).2
    = Ok 1 ∧
  screen (Sample.page (Some Sample.bob)
            (Moderate.updateStatus 102 Moderate.rejected)
            (World Sample.db0 [])).1
    = [Toasted (Toast (lit "Report updated") (lit "Report rejected.") None)] ∧
  (execute env (UpdateReport 102 (Reports.set_status_to pending)) Sample.db0).2
    = Ok 1 ∧
  Reports.status <$>
    reports (execute env (UpdateReport 102 (Reports.set_status_to pending))
               Sample.db0).1 !! 2
    = Some pending.
Proof. intros env. repeat split; vm_compute; reflexivity. Qed.

(** * Creation of a report *)

(** C3. The stored status of a created report is the one the request
    supplies, and pending only when it supplies none: the INSERT policy
    checks the owner alone, and the column default fills in a column that is
    left out. Alice creates a report as herself with status verified, and it
    is stored as verified and shown to every reader. *)
Theorem create_report_status :
  let env := Sample.as_ (Some Sample.alice) in
  let v := Reports.Values None (lit "Pothole") road_damage
             (lit "pothole on Elm St") None None (Some verified) Sample.alice
             None None None None in
  auth_uid env = Some (Reports.ins_user_id v) ∧
  execute env (InsertReport v) Sample.db0 =
    (with_reports Sample.db0
       (reports Sample.db0 ++
        [Reports.Row 500 (lit "Pothole") road_damage (lit "pothole on Elm St")
           None None verified Sample.alice None None 9%Z 9%Z]),
     Ok 1) ∧
  Reports.id <$> select_reports (Sample.as_ None)
                   (execute env (InsertReport v) Sample.db0).1
    = [101; 500]%N.
Proof. intros env v. repeat split; vm_compute; reflexivity. Qed.

(** * Review of a report *)

(** What the page's request does to the columns of the review. *)
Lemma update_status_keeps_reviewer env target st db db' n i r r' :
  execute env (UpdateReport target (Reports.set_status_to st)) db = (db', Ok n) →
  reports db !! i = Some r →
  reports db' !! i = Some r' →
  Reports.verified_by r' = Reports.verified_by r ∧
  Reports.verified_at r' = Reports.verified_at r.
Proof.
  intros Hex Hi Hi'.
  destruct (update_report_lookup _ _ _ _ _ _ _ _ Hex Hi) as [Hlook _].
  rewrite Hlook in Hi'. injection Hi' as <-.
  by destruct (bool_decide _ && updatable _ _ _ _).
Qed.

(** C2. A moderator's request succeeds on a report in any status, but the
    review leaves no reviewer and no review time: [updateStatus] sends the
    status alone and no trigger stamps the row. Bob the moderator verifies
    Alice's pending report from the page; the page reports success and the
    stored row is verified with [verified_by] and [verified_at] NULL. *)
Theorem review_leaves_no_stamp :
  let w := (Sample.page (Some Sample.bob)
              (Moderate.updateStatus 100 Moderate.verified)
              (World Sample.db0 [])).1 in
  has_role Sample.db0 (Some Sample.bob) MODERATOR = true ∧
  reports Sample.db0 !! 0 = Some (Sample.report 100 pending Sample.alice) ∧
  screen w = [Toasted (Toast (lit "Report updated") (lit "Report verified.") None)] ∧
  reports (db w) !! 0 =
    Some (Reports.Row 100 (lit "Pothole") road_damage (lit "pothole on Elm St")
            None None verified Sample.alice None None 5%Z 9%Z) ∧
  (Reports.verified_by <$> reports (db w) !! 0) = Some None ∧
  (Reports.verified_at <$> reports (db w) !! 0) = Some None.
Proof. intros w. repeat split; vm_compute; reflexivity. Qed.

(** * Validation of a submission *)

(** A string schema [trim().min(1, m1).max(n, m2)]. *)
Lemma parse_trim_min_max n m1 m2 t :
  ∃ issues,
    Zod.parse_string [Zod.trim_; Zod.min_ 1 m1; Zod.max_ n m2] t
      = (trim t, issues) ∧
    (issues = [] ↔ 1 ≤ length (trim t) ≤ n) ∧
    ∀ m, m ∈ issues → m = m1 ∨ m = m2.
Proof.
  cbn [Zod.parse_string]. eexists. split; [reflexivity|].
  destruct (Nat.ltb_spec (length (trim t)) 1), (Nat.ltb_spec n (length (trim t)));
    (split; [split; [try discriminate; lia|try lia; done]|]);
    intros m Hm; repeat (apply elem_of_cons in Hm as [->|Hm]; [tauto|]);
    by apply elem_of_nil in Hm.
Qed.

(** A string schema [trim().max(n, m)]. *)
Lemma parse_trim_max n m' t :
  ∃ issues,
    Zod.parse_string [Zod.trim_; Zod.max_ n m'] t = (trim t, issues) ∧
    (issues = [] ↔ length (trim t) ≤ n) ∧
    ∀ m, m ∈ issues → m = m'.
Proof.
  cbn [Zod.parse_string]. eexists. split; [reflexivity|].
  destruct (Nat.ltb_spec n (length (trim t)));
    (split; [split; [try discriminate; lia|try lia; done]|]);
    intros m Hm; repeat (apply elem_of_cons in Hm as [->|Hm]; [tauto|]);
    by apply elem_of_nil in Hm.
Qed.

Lemma parse_enum_spec options data :
  ∃ issues,
    Zod.parse_enum options data = (data, issues) ∧
    (issues = [] ↔ data ∈ options) ∧
    ∀ m, m ∈ issues → m = Zod.invalid_enum_value options data.
Proof.
  unfold Zod.parse_enum. case_bool_decide; eexists; (split; [reflexivity|]).
  - split; [done|]. by intros m Hm%elem_of_nil.
  - split; [split; [discriminate|done]|]. by intros m Hm%list_elem_of_singleton.
Qed.

Lemma at_nil f messages : Zod.at_ f messages = [] ↔ messages = [].
Proof. unfold Zod.at_. split; [apply fmap_nil_inv|by intros ->]. Qed.

Lemma at_messages f messages (allowed : list text) :
  (∀ m, m ∈ messages → m ∈ allowed) →
  Forall (λ e, Zod.message e ∈ allowed) (Zod.at_ f messages).
Proof.
  intros Hall. unfold Zod.at_. apply Forall_fmap, Forall_forall.
  intros m Hm. by apply Hall.
Qed.

(** The issues of [reportSchema]: each carries a message of the schema, and
    there is none exactly when every key is in range after trimming. *)
Lemma parse_issues input :
  ∃ data errors,
    ReportSchema.parse input = (data, errors) ∧
    Forall (λ e, Zod.message e ∈ ReportSchema.messages input) errors ∧
    (errors = [] ↔
     1 ≤ length (trim (ReportSchema.title input)) ≤ 200 ∧
     ReportSchema.category input ∈ ReportSchema.category_options ∧
     1 ≤ length (trim (ReportSchema.description input)) ≤ 2000 ∧
     ∀ l, ReportSchema.location input = Some l → length (trim l) ≤ 500).
Proof.
  unfold ReportSchema.parse, ReportSchema.title_checks,
    ReportSchema.description_checks.
  destruct (parse_trim_min_max 200 (lit "Title is required")
              (lit "Title must be less than 200 characters")
              (ReportSchema.title input)) as (it & -> & Ht & Mt).
  destruct (parse_enum_spec ReportSchema.category_options
              (ReportSchema.category input)) as (ic & -> & Hc & Mc).
  destruct (parse_trim_min_max 2000 (lit "Description is required")
              (lit "Description must be less than 2000 characters")
              (ReportSchema.description input)) as (id_ & -> & Hd & Md).
  assert (∃ l il,
            Zod.parse_optional ReportSchema.location_checks
              (ReportSchema.location input) = (l, il) ∧
            (il = [] ↔ ∀ l, ReportSchema.location input = Some l →
                            length (trim l) ≤ 500) ∧
            ∀ m, m ∈ il →
                 m = lit "Location must be less than 500 characters")
    as (l & il & -> & Hl & Ml).
  { unfold Zod.parse_optional, ReportSchema.location_checks.
    destruct (ReportSchema.location input) as [loc|].
    - destruct (parse_trim_max 500
                  (lit "Location must be less than 500 characters") loc)
        as (il & -> & Hl & Ml).
      eexists _, il. split; [reflexivity|]. split; [|done].
      rewrite Hl. split; [by intros ? ? [= <-]|by intros H; apply H].
    - eexists _, []. split; [reflexivity|]. split; [done|].
      by intros m Hm%elem_of_nil. }
  eexists _, _. split; [reflexivity|]. split.
  - unfold ReportSchema.messages. rewrite !Forall_app.
    repeat split; apply at_messages; intros m Hm.
    + destruct (Mt m Hm) as [-> | ->];
        repeat first [apply list_elem_of_here | apply list_elem_of_further].
    + rewrite (Mc m Hm).
      repeat first [apply list_elem_of_here | apply list_elem_of_further].
    + destruct (Md m Hm) as [-> | ->];
        repeat first [apply list_elem_of_here | apply list_elem_of_further].
    + rewrite (Ml m Hm).
      repeat first [apply list_elem_of_here | apply list_elem_of_further].
  - rewrite !app_nil, !at_nil, Ht, Hc, Hd, Hl. tauto.
Qed.

(** The screen of a rejected submission. *)
Lemma handleSubmit_failure user_id f firstError errors :
  ReportSchema.safeParse
    (ReportSchema.Input (SubmitReport.title f) (SubmitReport.category f)
       (SubmitReport.description f)
       (SubmitReport.or_else (Some (SubmitReport.location f))))
  = ReportSchema.failure (firstError :: errors) →
  SubmitReport.handleSubmit (Some user_id) f =
  Call (setLoading true) (λ _,
    Call (toast (Toast (lit "Validation failed") (Zod.message firstError)
                       (Some (lit "destructive")))) (λ _,
      Call (setLoading false) Ret)).
Proof. intros Hparse. unfold SubmitReport.handleSubmit. by rewrite Hparse. Qed.

(** C6 (amended). When, after trimming, the title is empty or longer than
    200 characters, or the description is empty or longer than 2000
    characters, or the location is longer than 500 characters, or when the
    category is not one of power_outage, water_cut, road_damage and other,
    the submission issues no insert and no upload; for a signed-in user the
    handler shows the toast Validation failed with the message of the first
    issue of the schema, a message of one of its four keys, and stops. *)
Theorem invalid_submission_rejected (user : option uuid) (f : SubmitReport.form) :
  trim (SubmitReport.title f) = [] ∨
  200 < length (trim (SubmitReport.title f)) ∨
  trim (SubmitReport.description f) = [] ∨
  2000 < length (trim (SubmitReport.description f)) ∨
  500 < length (trim (SubmitReport.location f)) ∨
  SubmitReport.category f ∉ ReportSchema.category_options →
  let input :=
    ReportSchema.Input (SubmitReport.title f) (SubmitReport.category f)
      (SubmitReport.description f)
      (SubmitReport.or_else (Some (SubmitReport.location f))) in
  ¬ calls is_insert (SubmitReport.handleSubmit user f) ∧
  ¬ calls is_upload (SubmitReport.handleSubmit user f) ∧
  ∀ user_id, user = Some user_id →
    ∃ firstError errors,
      ReportSchema.safeParse input = ReportSchema.failure (firstError :: errors) ∧
      Zod.message firstError ∈ ReportSchema.messages input ∧
      SubmitReport.handleSubmit user f =
      Call (setLoading true) (λ _,
        Call (toast (Toast (lit "Validation failed") (Zod.message firstError)
                           (Some (lit "destructive")))) (λ _,
          Call (setLoading false) Ret)).
Proof.
  intros Hbad input.
  destruct (parse_issues input) as (data & errors & Hparse & Hmsg & Hnil).
  assert (∃ firstError rest, errors = firstError :: rest) as (e & rest & ->).
  { destruct errors as [|e rest]; [|by eauto]. exfalso.
    destruct Hnil as [Hnil _].
    destruct (Hnil eq_refl) as ((Ht1 & Ht2) & Hc & (Hd1 & Hd2) & Hl).
    subst input. simpl in *.
    destruct Hbad as [H|[H|[H|[H|[H|H]]]]]; try (rewrite H in *; simpl in *; lia);
      try lia; try done.
    destruct (SubmitReport.location f) as [|c l] eqn:Hloc; [simpl in H; lia|].
    specialize (Hl _ eq_refl). lia. }
  assert (ReportSchema.safeParse input = ReportSchema.failure (e :: rest)) as Hfail.
  { unfold ReportSchema.safeParse. by rewrite Hparse. }
  assert (∀ user_id, SubmitReport.handleSubmit (Some user_id) f =
            Call (setLoading true) (λ _,
              Call (toast (Toast (lit "Validation failed") (Zod.message e)
                                 (Some (lit "destructive")))) (λ _,
                Call (setLoading false) Ret))) as Hrun.
  { intros user_id. by apply (handleSubmit_failure user_id f e rest). }
  split; [|split].
  - destruct user as [user_id|]; [rewrite Hrun|]; simpl; [|tauto].
    intros [[]|[_ [[]|[_ [[]|[_ []]]]]]].
  - destruct user as [user_id|]; [rewrite Hrun|]; simpl; [|tauto].
    intros [[]|[_ [[]|[_ [[]|[_ []]]]]]].
  - intros user_id ->. exists e, rest. split; [done|]. split; [|apply Hrun].
    by apply Forall_cons in Hmsg as [? _].
Qed.

(** Alice submits a form with a blank title. *)
Lemma invalid_submission_rejected_witness :
  let f := SubmitReport.Form (lit "   ") (lit "road_damage")
             (lit "pothole on Elm St") [] None in
  trim (SubmitReport.title f) = [] ∧
  ¬ calls is_insert (SubmitReport.handleSubmit (Some Sample.alice) f) ∧
  SubmitReport.handleSubmit (Some Sample.alice) f =
    Call (setLoading true) (λ _,
      Call (toast (Toast (lit "Validation failed") (lit "Title is required")
                         (Some (lit "destructive")))) (λ _,
        Call (setLoading false) Ret)).
Proof.
  intros f.
  assert (trim (SubmitReport.title f) = []) as Ht by reflexivity.
  split; [exact Ht|].
  destruct (invalid_submission_rejected (Some Sample.alice) f (or_introl Ht))
    as (Hno & _ & Hshow).
  split; [exact Hno|].
  destruct (Hshow Sample.alice eq_refl) as (e & rest & Hparse & _ & ->).
  vm_compute in Hparse. injection Hparse as <- _. reflexivity.
Defined.

(** C6, as the claim states it, fails. A description of 2000 letters and a
    trailing space is longer than 2000 characters, and the schema trims it
    before it measures it: Alice's submission passes and the insert is
    issued and stored. Without a signed-in user the handler returns at once
    and shows no message, whatever the form holds. *)
Lemma invalid_submission_rejected_counterexample :
  length (SubmitReport.description Sample.padded_form) = 2001 ∧
  calls is_insert
    (SubmitReport.handleSubmit (Some Sample.alice) Sample.padded_form) ∧
  length <$>
    (Reports.description <$>
       reports (db (Sample.page (Some Sample.alice)
                      (SubmitReport.handleSubmit (Some Sample.alice)
                         Sample.padded_form)
                      (World Sample.db0 [])).1)) = [17; 17; 17; 2000] ∧
  SubmitReport.handleSubmit None
    (SubmitReport.Form [] [] [] [] None) = Ret ().
Proof.
  split; [vm_compute; reflexivity|]. split; [|split].
  - unfold SubmitReport.handleSubmit.
    assert (ReportSchema.safeParse
              (ReportSchema.Input
                 (SubmitReport.title Sample.padded_form)
                 (SubmitReport.category Sample.padded_form)
                 (SubmitReport.description Sample.padded_form)
                 (SubmitReport.or_else
                    (Some (SubmitReport.location Sample.padded_form))))
            = ReportSchema.success
                (ReportSchema.Input (lit "Pothole") (lit "road_damage")
                   (replicate 2000 97%N) None)) as ->
      by (vm_compute; reflexivity).
    simpl. right. exists (). left. exact I.
  - vm_compute. reflexivity.
  - reflexivity.
Qed.

(** The second copy of the page has no schema: a signed-in user's form
    without an image goes to the store as it stands, whatever it holds. *)
Lemma unchecked_submission_inserts user_id title category description location :
  SubmitReportUnchecked.handleSubmit (Some user_id)
    (SubmitReport.Form title category description location None) =
  Call (setLoading true) (λ _,
    Call (reports_insert
            (ReportValues title category description
               (SubmitReport.or_else (Some location)) None user_id)) (λ error,
      match error with
      | Some error =>
          Call (toast (Toast (lit "Submission failed") (error_message error)
                             (Some (lit "destructive")))) (λ _,
            Call (setLoading false) Ret)
      | None =>
          Call (toast (Toast (lit "Report submitted")
                  (lit "Your report has been submitted successfully.") None))
            (λ _, Call (navigate (lit "/dashboard")) (λ _,
               Call (setLoading false) Ret))
      end)).
Proof.
  unfold SubmitReportUnchecked.handleSubmit. simpl. f_equal.
Qed.

(** * The dashboard *)

(** The three labels are pairwise different. *)
Lemma status_labels_differ :
  lit "verified" ≠ lit "pending" ∧ lit "verified" ≠ lit "rejected" ∧
  lit "pending" ≠ lit "rejected".
Proof. repeat split; discriminate. Qed.

(** C10. When every fetched report has status pending, verified or
    rejected, the total the dashboard computes is the sum of its verified,
    pending and rejected counts. *)
Theorem stats_total (data : list status_row) :
  Forall (λ r, row_status r ∈ [lit "pending"; lit "verified"; lit "rejected"])
         data →
  Stats.total (Dashboard.stats data) =
  Stats.verified (Dashboard.stats data) + Stats.pending (Dashboard.stats data)
  + Stats.rejected (Dashboard.stats data).
Proof.
  destruct status_labels_differ as (Hvp & Hvr & Hpr).
  unfold Dashboard.stats. simpl.
  induction 1 as [|r data Hr _ IH]; [done|].
  rewrite !filter_cons. simpl. rewrite IH.
  apply elem_of_cons in Hr as [->|Hr]; [|apply elem_of_cons in Hr as [->|Hr]];
    [| |apply list_elem_of_singleton in Hr as ->];
    repeat case_decide; simpl; try lia; congruence.
Qed.

(** Four fetched rows. *)
Lemma stats_total_witness :
  let data := StatusRow <$> [lit "pending"; lit "verified"; lit "pending";
                             lit "rejected"] in
  Forall (λ r, row_status r ∈ [lit "pending"; lit "verified"; lit "rejected"])
         data ∧
  Stats.total (Dashboard.stats data) = 4 ∧
  Stats.total (Dashboard.stats data) =
  Stats.verified (Dashboard.stats data) + Stats.pending (Dashboard.stats data)
  + Stats.rejected (Dashboard.stats data).
Proof.
  intros data.
  assert (Forall (λ r, row_status r ∈
                       [lit "pending"; lit "verified"; lit "rejected"]) data)
    as Hdata.
  { subst data. cbn [fmap list_fmap].
    repeat (apply Forall_cons; split; [simpl|]); try apply Forall_nil;
      repeat first [apply list_elem_of_here | apply list_elem_of_further];
      exact I. }
  split; [exact Hdata|]. split; [reflexivity|]. exact (stats_total data Hdata).
Defined.

(** The rows the store returns to the dashboard carry the three labels, so
    the count the page shows is split by them for every database and
    caller. *)
Lemma fetched_statuses env (d : Db) :
  Forall (λ r, row_status r ∈ [lit "pending"; lit "verified"; lit "rejected"])
    ((λ r, StatusRow (report_status_out (Reports.status r)))
     <$> select_reports env d).
Proof.
  apply Forall_fmap, Forall_forall. intros r _. simpl.
  destruct (Reports.status r); simpl;
    repeat first [apply list_elem_of_here | apply list_elem_of_further].
Qed.

(** * The constraints are kept *)


Lemma execute_update_user_roles env where_ s db :
  consistent db →
  execute env (UpdateUserRoles where_ s) db = (db, Ok 0).
Proof.
  intros [Hur _]. unfold execute, perform, update_user_roles.
  rewrite update_rows_no_hit.
  - unfold store_user_roles. rewrite Hur. by destruct db.
  - intros r _. rewrite user_roles_not_updatable. apply andb_false_r.
Qed.

Lemma execute_delete_user_roles env where_ db :
  execute env (DeleteUserRoles where_) db = (db, Ok 0).
Proof.
  unfold execute, perform, delete_user_roles, delete_rows.
  rewrite filter_all, filter_none.
  - by destruct db.
  - intros r _. rewrite user_roles_not_deletable, andb_false_r. by intros [].
  - intros r _. by rewrite user_roles_not_deletable, andb_false_r.
Qed.





(** * The role predicate *)

(** X2. [has_role] answers true exactly when [user_roles] holds a row of
    the identity with the role; an anonymous caller (a NULL identity) holds
    no role, and the answer does not depend on the reports. *)
Theorem role_check db u ro :
  (has_role db u ro = true ↔
   ∃ r, r ∈ user_roles db ∧ u = Some (UserRoles.user_id r) ∧
        UserRoles.role r = ro) ∧
  has_role db None ro = false ∧
  ∀ rows, has_role (with_reports db rows) u ro = has_role db u ro.
Proof.
  split; [apply has_role_spec|]. split; [apply has_role_anonymous|done].
Qed.

(** * Reading roles *)

(** The SELECT policy of [user_roles]. *)
Lemma user_roles_select_spec uid db r :
  passes_using SELECT user_roles_policies uid db r = true ↔
  uid = Some (UserRoles.user_id r).
Proof.
  unfold passes_using.
  change (policies_for SELECT user_roles_policies)
    with [Users_can_view_their_own_roles].
  unfold existsb, Users_can_view_their_own_roles, using_qual, pol_using.
  by rewrite orb_false_r, holds_sql_eq.
Qed.

(** X3. A caller reads from [user_roles] exactly the rows of their own
    identity, in the order of the table; an anonymous caller reads none,
    and holding MODERATOR shows nobody else's roles. *)
Theorem read_own_roles env db :
  (select_user_roles env db `sublist_of` user_roles db) ∧
  (∀ r, r ∈ select_user_roles env db ↔
        r ∈ user_roles db ∧ auth_uid env = Some (UserRoles.user_id r)) ∧
  (auth_uid env = None → select_user_roles env db = []).
Proof.
  assert (∀ r, r ∈ select_user_roles env db ↔
               r ∈ user_roles db ∧ auth_uid env = Some (UserRoles.user_id r))
    as Hspec.
  { intros r. unfold select_user_roles.
    rewrite list_elem_of_filter, Is_true_true, user_roles_select_spec. tauto. }
  split; [apply sublist_filter|]. split; [done|].
  intros Hanon. apply elem_of_nil_inv. intros r [_ Hr]%Hspec. congruence.
Qed.

(** * What no client can do to the roles *)

(** X4. [user_roles] has no UPDATE and no DELETE policy: whatever rows a
    client's UPDATE or DELETE selects and whoever sends it, a moderator
    included, it touches no row and leaves the database as it was. *)
Theorem roles_are_immutable env db :
  consistent db →
  (∀ where_ s, execute env (UpdateUserRoles where_ s) db = (db, Ok 0)) ∧
  (∀ where_, execute env (DeleteUserRoles where_) db = (db, Ok 0)).
Proof.
  intros Hc. split.
  - intros where_ s. by apply execute_update_user_roles.
  - intros where_. apply execute_delete_user_roles.
Qed.

(** Bob the moderator tries to make Alice's role MODERATOR. *)
Lemma roles_are_immutable_witness :
  let env := Sample.as_ (Some Sample.bob) in
  let s := UserRoles.Set_ None None (Some MODERATOR) None in
  consistent Sample.db0 ∧
  execute env (UpdateUserRoles
                 (λ r, bool_decide (UserRoles.user_id r = Sample.alice)) s)
    Sample.db0 = (Sample.db0, Ok 0).
Proof.
  intros env s.
  assert (consistent Sample.db0) as Hc by (split; vm_compute; reflexivity).
  split; [exact Hc|].
  destruct (roles_are_immutable env Sample.db0 Hc) as [Hup _]. apply Hup.
Defined.

(** X5. [reports] has no DELETE policy: no client's DELETE removes a
    report, whoever sends it and whatever rows it selects. *)
Theorem reports_are_not_deleted env where_ db :
  execute env (DeleteReports where_) db = (db, Ok 0).
Proof.
  unfold execute, perform, delete_reports, delete_rows.
  assert (∀ r, (where_ r
                && deletable reports_policies (auth_uid env) db r) = false)
    as Hno by (intros r; by rewrite reports_not_deletable, andb_false_r).
  rewrite filter_all, filter_none.
  - by destruct db.
  - intros r _. rewrite Hno. by intros [].
  - intros r _. by rewrite Hno.
Qed.

(** * Creating reports *)

(** X6. A report is created only in the caller's own name: an INSERT whose
    [user_id] is not the caller, and any INSERT of an anonymous caller, fails
    with a policy error and stores nothing. A signed-in, registered caller
    who files a report as themselves, with a new id and no reviewer, always
    succeeds, and the row is added at the end of the table. *)
Theorem create_as_oneself env v db :
  (auth_uid env ≠ Some (Reports.ins_user_id v) →
   execute env (InsertReport v) db = (db, Err insufficient_privilege)) ∧
  (consistent db →
   auth_uid env = Some (Reports.ins_user_id v) →
   Reports.ins_user_id v ∈ auth_users db →
   Reports.ins_verified_by v = None →
   Reports.id (reports_new_row env v) ∉ Reports.id <$> reports db →
   execute env (InsertReport v) db =
     (with_reports db (reports db ++ [reports_new_row env v]), Ok 1)).
Proof.
  rewrite execute_insert_report. simpl. split.
  - intros Hne.
    destruct (passes_with_check _ _ _ _ _) eqn:Hpol; [|done].
    by apply reports_insert_spec in Hpol.
  - intros [_ Hc] Ho Hu Hv Hid.
    assert (passes_with_check INSERT reports_policies (auth_uid env) db
              (reports_new_row env v) = true) as ->
      by (by apply reports_insert_spec).
    assert (reports_violation (auth_users db)
              (reports db ++ [reports_new_row env v]) = None) as ->; [|done].
    apply reports_violation_None in Hc as [Hnd Hfk].
    apply reports_violation_None. split.
    + rewrite fmap_app. apply NoDup_app. split; [done|].
      split; [|apply NoDup_singleton].
      intros x Hx Hx'%list_elem_of_singleton. by subst x.
    + intros r [Hr|Hr%list_elem_of_singleton]%elem_of_app; [by apply Hfk|].
      subst r. simpl. rewrite Hv. split; [done|]. by intros ? [=].
Qed.

(** Alice files a report, and an anonymous caller files one in her name. *)
Lemma create_as_oneself_witness :
  let v := Reports.Values None (lit "Dark") power_outage (lit "no light")
             None None None Sample.alice None None None None in
  let env := Sample.as_ (Some Sample.alice) in
  auth_uid (Sample.as_ None) ≠ Some (Reports.ins_user_id v) ∧
  execute (Sample.as_ None) (InsertReport v) Sample.db0 =
    (Sample.db0, Err insufficient_privilege) ∧
  consistent Sample.db0 ∧
  execute env (InsertReport v) Sample.db0 =
    (with_reports Sample.db0 (reports Sample.db0 ++ [reports_new_row env v]),
     Ok 1).
Proof.
  intros v env.
  assert (auth_uid (Sample.as_ None) ≠ Some (Reports.ins_user_id v)) as Hne
    by discriminate.
  assert (consistent Sample.db0) as Hc by (split; vm_compute; reflexivity).
  split; [exact Hne|]. split.
  - destruct (create_as_oneself (Sample.as_ None) v Sample.db0) as [Hno _].
    exact (Hno Hne).
  - split; [exact Hc|].
    destruct (create_as_oneself env v Sample.db0) as [_ Hyes].
    apply Hyes; [exact Hc|reflexivity| |reflexivity|].
    + vm_compute. reflexivity.
    + vm_compute. intros H. by repeat (apply elem_of_cons in H as [H|H]; [|]);
        try discriminate; apply elem_of_nil in H.
Defined.

(** A request on [reports] leaves the roles as they were. *)
Lemma has_role_with_reports db rows u ro :
  has_role (with_reports db rows) u ro = has_role db u ro.
Proof. done. Qed.

(** X7. What a caller has created, the caller reads back: after a
    successful INSERT the new row is among the reports the creator reads.
    When the request named no status, the row is pending and no other
    caller without the MODERATOR role reads it. *)
Theorem created_report_is_read env v db db' n :
  execute env (InsertReport v) db = (db', Ok n) →
  reports_new_row env v ∈ select_reports env db' ∧
  ∀ env', Reports.ins_status v = None →
          auth_uid env' ≠ auth_uid env →
          has_role db (auth_uid env') MODERATOR = false →
          reports_new_row env v ∉ select_reports env' db'.
Proof.
  intros Hex. pose proof (insert_report_status _ _ _ _ _ Hex) as (Hrows & Hst & Ho).
  assert (user_roles db' = user_roles db) as Hroles.
  { revert Hex. rewrite execute_insert_report. simpl.
    destruct (passes_with_check _ _ _ _ _); [|discriminate].
    destruct (reports_violation _ _); [discriminate|]. by intros [= <- _]. }
  split.
  - apply select_reports_spec. rewrite Hrows. split.
    + apply elem_of_app. right. apply list_elem_of_here.
    + right. left. exact Ho.
  - intros env' Hnone Hother Hmod [_ Hpol]%select_reports_spec.
    rewrite Hst, Hnone in Hpol. simpl in Hpol.
    destruct Hpol as [?|[Hown|Hm]]; [done|congruence|].
    unfold has_role in Hm, Hmod. rewrite Hroles in Hm. congruence.
Qed.

(** Alice files a report; she reads it, Carol does not. *)
Lemma created_report_is_read_witness :
  let v := Reports.Values None (lit "Dark") power_outage (lit "no light")
             None None None Sample.alice None None None None in
  let env := Sample.as_ (Some Sample.alice) in
  let db' := (execute env (InsertReport v) Sample.db0).1 in
  execute env (InsertReport v) Sample.db0 = (db', Ok 1) ∧
  reports_new_row env v ∈ select_reports env db' ∧
  reports_new_row env v ∉ select_reports (Sample.as_ (Some Sample.carol)) db'.
Proof.
  intros v env db'.
  assert (execute env (InsertReport v) Sample.db0 = (db', Ok 1)) as Hex
    by (vm_compute; reflexivity).
  split; [exact Hex|].
  destruct (created_report_is_read env v Sample.db0 db' 1 Hex) as [Hmine Hnot].
  split; [exact Hmine|].
  apply Hnot; [reflexivity|discriminate|vm_compute; reflexivity].
Defined.

(** * Updates that touch nothing *)

(** An UPDATE that hits no row the caller may update. *)
Lemma update_report_misses env target s db :
  consistent db →
  has_role db (auth_uid env) MODERATOR = false →
  (∀ r, r ∈ reports db → Reports.id r = target →
        auth_uid env ≠ Some (Reports.user_id r) ∨ Reports.status r ≠ pending) →
  execute env (UpdateReport target s) db = (db, Ok 0).
Proof.
  intros [_ Hc] Hm Hmiss. rewrite execute_update_report.
  rewrite update_rows_no_hit.
  - by rewrite Hc, with_reports_same.
  - intros r Hr. apply not_true_iff_false.
    intros [Hid%bool_decide_eq_true Hupd]%andb_true_iff.
    apply reports_updatable_spec in Hupd as [[Ho Hp]|?]; [|congruence].
    by destruct (Hmiss r Hr Hid).
Qed.

(** X8. An update by a caller without the MODERATOR role touches nothing
    when no report with the given id is the caller's own pending report:
    the id of nobody's report, of another user's report, or of the caller's
    own verified or rejected report. The database stays as it was and the
    request reports zero rows, without an error. *)
Theorem update_misses env target s db :
  consistent db →
  has_role db (auth_uid env) MODERATOR = false →
  (∀ r, r ∈ reports db → Reports.id r = target →
        auth_uid env ≠ Some (Reports.user_id r) ∨ Reports.status r ≠ pending) →
  execute env (UpdateReport target s) db = (db, Ok 0).
Proof.
  intros [_ Hc] Hm Hmiss. rewrite execute_update_report.
  assert (∀ r, r ∈ reports db →
            bool_decide (Reports.id r = target)
            && updatable reports_policies (auth_uid env) db r = false) as Hno.
  { intros r Hr. apply not_true_iff_false.
    intros [Hid%bool_decide_eq_true Hupd]%andb_true_iff.
    apply reports_updatable_spec in Hupd as [[Ho Hp]|?]; [|congruence].
    by destruct (Hmiss r Hr Hid). }
  rewrite update_rows_no_hit by exact Hno.
  by rewrite Hc, with_reports_same.
Qed.

(** Carol tries to edit Alice's pending report. *)
Lemma update_misses_witness :
  let env := Sample.as_ (Some Sample.carol) in
  let s := Reports.Set_ None (Some (lit "Mine")) None None None None None None
             None None None None in
  consistent Sample.db0 ∧
  has_role Sample.db0 (auth_uid env) MODERATOR = false ∧
  execute env (UpdateReport 100 s) Sample.db0 = (Sample.db0, Ok 0).
Proof.
  intros env s.
  assert (consistent Sample.db0) as Hc by (split; vm_compute; reflexivity).
  assert (has_role Sample.db0 (auth_uid env) MODERATOR = false) as Hm
    by (vm_compute; reflexivity).
  split; [exact Hc|]. split; [exact Hm|].
  apply (update_misses env 100 s Sample.db0 Hc Hm).
  intros r Hr Hid.
  repeat (apply elem_of_cons in Hr as [->|Hr]);
    try (by apply elem_of_nil in Hr); try discriminate Hid.
  left. discriminate.
Defined.

(** X9. A successful UPDATE of reports by id is local: the table keeps its
    length, every report with another id keeps its place and all its
    columns, and the roles and the registered identities stay as they
    were. *)
Theorem update_is_local env target s db db' n :
  execute env (UpdateReport target s) db = (db', Ok n) →
  length (reports db') = length (reports db) ∧
  (∀ i r, reports db !! i = Some r → Reports.id r ≠ target →
          reports db' !! i = Some r) ∧
  user_roles db' = user_roles db ∧
  auth_users db' = auth_users db.
Proof.
  intros Hex. split; [|split].
  - revert Hex. rewrite execute_update_report.
    destruct (update_rows _ _ _ _ _ _) as [[rows k]|e] eqn:Hup; [|discriminate].
    destruct (reports_violation _ _); [discriminate|]. intros [= <- _].
    apply update_rows_Ok in Hup as (-> & _). simpl. apply length_fmap.
  - intros i r Hi Hid.
    destruct (update_report_lookup _ _ _ _ _ _ _ _ Hex Hi) as [-> _].
    by rewrite bool_decide_eq_false_2.
  - revert Hex. rewrite execute_update_report.
    destruct (update_rows _ _ _ _ _ _) as [[rows k]|e]; [|discriminate].
    destruct (reports_violation _ _); [discriminate|]. by intros [= <- _].
Qed.

(** Bob verifies report 100; report 101 stays as it was. *)
Lemma update_is_local_witness :
  let env := Sample.as_ (Some Sample.bob) in
  let db' := (execute env (UpdateReport 100 (Reports.set_status_to verified))
                Sample.db0).1 in
  execute env (UpdateReport 100 (Reports.set_status_to verified)) Sample.db0
    = (db', Ok 1) ∧
  length (reports db') = 3 ∧
  reports db' !! 1 = Some (Sample.report 101 verified Sample.alice).
Proof.
  intros env db'.
  assert (execute env (UpdateReport 100 (Reports.set_status_to verified))
            Sample.db0 = (db', Ok 1)) as Hex by (vm_compute; reflexivity).
  split; [exact Hex|].
  destruct (update_is_local env 100 _ Sample.db0 db' 1 Hex) as (Hlen & Hrest & _).
  split; [exact Hlen|]. apply Hrest; [reflexivity|discriminate].
Defined.

(** * What moderators and the public read *)

(** X10. A caller who holds MODERATOR reads the whole table of reports,
    whatever their status and owner. *)
Theorem moderator_reads_all env db :
  has_role db (auth_uid env) MODERATOR = true →
  select_reports env db = reports db.
Proof.
  intros Hm. unfold select_reports. apply filter_all.
  intros r _. apply Is_true_true, reports_select_spec. auto.
Qed.

Lemma moderator_reads_all_witness :
  has_role Sample.db0 (auth_uid (Sample.as_ (Some Sample.bob))) MODERATOR = true ∧
  select_reports (Sample.as_ (Some Sample.bob)) Sample.db0 = reports Sample.db0.
Proof.
  assert (has_role Sample.db0 (auth_uid (Sample.as_ (Some Sample.bob)))
            MODERATOR = true) as Hm by (vm_compute; reflexivity).
  split; [exact Hm|]. exact (moderator_reads_all _ _ Hm).
Defined.

(** X11. Review decides who reads a report. Once a moderator has set a
    report to verified, every caller reads the stored row, an anonymous one
    included; once a moderator has set it to rejected, a caller who is not
    its owner and holds no MODERATOR role does not read it. *)
Theorem review_decides_visibility env db i r :
  consistent db →
  reports db !! i = Some r →
  has_role db (auth_uid env) MODERATOR = true →
  let stored s :=
    update_updated_at_column (now env)
      (Reports.apply_set (Reports.set_status_to s) r) in
  let after s :=
    (execute env (UpdateReport (Reports.id r) (Reports.set_status_to s)) db).1 in
  (∀ env', stored verified ∈ select_reports env' (after verified)) ∧
  (∀ env', auth_uid env' ≠ Some (Reports.user_id r) →
           has_role db (auth_uid env') MODERATOR = false →
           stored rejected ∉ select_reports env' (after rejected)).
Proof.
  intros Hc Hi Hm stored after.
  assert (∀ s, after s = with_reports db (<[i:=stored s]> (reports db))) as Hafter.
  { intros s. unfold after.
    by destruct (moderator_sets_status env db i r s Hc Hi Hm) as [-> _]. }
  split.
  - intros env'. rewrite Hafter. apply select_reports_spec. split; [|by left].
    simpl. apply list_elem_of_insert. by eapply lookup_lt_Some.
  - intros env' Ho Hmod. rewrite Hafter.
    intros [_ [?|[?|Hm']]]%select_reports_spec; [done|done|].
    rewrite has_role_with_reports in Hm'. congruence.
Qed.

(** Bob verifies Alice's pending report and an anonymous caller reads it;
    had he rejected it, Carol would not read it. *)
Lemma review_decides_visibility_witness :
  let env := Sample.as_ (Some Sample.bob) in
  let r := Sample.report 100 pending Sample.alice in
  let stored s :=
    update_updated_at_column (now env)
      (Reports.apply_set (Reports.set_status_to s) r) in
  let after s :=
    (execute env (UpdateReport 100 (Reports.set_status_to s)) Sample.db0).1 in
  consistent Sample.db0 ∧
  stored verified ∈ select_reports (Sample.as_ None) (after verified) ∧
  stored rejected ∉ select_reports (Sample.as_ (Some Sample.carol))
                      (after rejected).
Proof.
  intros env r stored after.
  assert (consistent Sample.db0) as Hc by (split; vm_compute; reflexivity).
  assert (has_role Sample.db0 (auth_uid env) MODERATOR = true) as Hm
    by (vm_compute; reflexivity).
  split; [exact Hc|].
  destruct (review_decides_visibility env Sample.db0 0 r Hc eq_refl Hm)
    as [Hpub Hhid].
  split; [apply Hpub|]. apply Hhid; [discriminate|vm_compute; reflexivity].
Defined.

(** * Registration *)

(** X12. Registration and the role predicate compose: after a successful
    registration the new identity holds USER and does not hold MODERATOR,
    and reading [user_roles] as the new identity returns its one row. *)
Theorem registered_user_holds_USER env new_id db db' n :
  consistent db →
  execute env (SignUp new_id) db = (db', Ok n) →
  has_role db' (Some new_id) USER = true ∧
  has_role db' (Some new_id) MODERATOR = false ∧
  ∀ env', auth_uid env' = Some new_id →
          select_user_roles env' db' =
            [UserRoles.Row (gen_random_uuid env) new_id USER (now env)].
Proof.
  intros [Hur _]. apply user_roles_violation_None in Hur as (_ & _ & Hfk).
  rewrite execute_sign_up. simpl.
  case_bool_decide as Hnew; [discriminate|].
  destruct (user_roles_violation _ _); [discriminate|]. intros [= <- _].
  assert (∀ r, r ∈ user_roles db → UserRoles.user_id r ≠ new_id) as Hold.
  { intros r Hr Heq. apply Hnew. rewrite <- Heq. by apply Hfk. }
  split; [|split].
  - apply has_role_spec.
    exists (UserRoles.Row (gen_random_uuid env) new_id USER (now env)).
    split; [|done]. simpl. apply elem_of_app. right. apply list_elem_of_here.
  - apply not_true_iff_false. intros (r & Hr & [= Hu] & Hro)%has_role_spec.
    simpl in Hr. apply elem_of_app in Hr as [Hr|Hr%list_elem_of_singleton].
    + by apply (Hold r).
    + by subst r.
  - intros env' Hme. unfold select_user_roles. simpl.
    rewrite filter_app, filter_none.
    + rewrite filter_cons_True; [done|].
      apply Is_true_true, user_roles_select_spec. by rewrite Hme.
    + intros r Hr Hpass%Is_true_true.
      apply user_roles_select_spec in Hpass.
      apply (Hold r Hr). rewrite Hme in Hpass. congruence.
Qed.

(** Dave registers with id 7. *)
Lemma registered_user_holds_USER_witness :
  let db' := (execute (Sample.as_ None) (SignUp 7) Sample.db0).1 in
  consistent Sample.db0 ∧
  execute (Sample.as_ None) (SignUp 7) Sample.db0 = (db', Ok 1) ∧
  has_role db' (Some 7%N) USER = true ∧
  has_role db' (Some 7%N) MODERATOR = false.
Proof.
  intros db'.
  assert (consistent Sample.db0) as Hc by (split; vm_compute; reflexivity).
  assert (execute (Sample.as_ None) (SignUp 7) Sample.db0 = (db', Ok 1)) as Hex
    by (vm_compute; reflexivity).
  split; [exact Hc|]. split; [exact Hex|].
  destruct (registered_user_holds_USER _ _ _ _ _ Hc Hex) as (H1 & H2 & _).
  split; [exact H1|exact H2].
Defined.

(** * What the schema accepts *)

(** The data of [reportSchema]: the trimmed strings and the category. *)
Lemma parse_output input :
  (ReportSchema.parse input).1 =
  ReportSchema.Input (trim (ReportSchema.title input))
    (ReportSchema.category input)
    (trim (ReportSchema.description input))
    (trim <$> ReportSchema.location input).
Proof.
  unfold ReportSchema.parse, ReportSchema.title_checks,
    ReportSchema.description_checks, ReportSchema.location_checks,
    Zod.parse_enum, Zod.parse_optional.
  cbn [Zod.parse_string].
  destruct (ReportSchema.location input); cbn [Zod.parse_string];
    by case_bool_decide.
Qed.

Lemma safeParse_spec input data :
  ReportSchema.safeParse input = ReportSchema.success data ↔
  (1 ≤ length (trim (ReportSchema.title input)) ≤ 200 ∧
   ReportSchema.category input ∈ ReportSchema.category_options ∧
   1 ≤ length (trim (ReportSchema.description input)) ≤ 2000 ∧
   ∀ l, ReportSchema.location input = Some l → length (trim l) ≤ 500) ∧
  data = ReportSchema.Input (trim (ReportSchema.title input))
           (ReportSchema.category input)
           (trim (ReportSchema.description input))
           (trim <$> ReportSchema.location input).
Proof.
  destruct (parse_issues input) as (d & errors & Hparse & _ & Hnil).
  pose proof (parse_output input) as Hout. rewrite Hparse in Hout. simpl in Hout.
  unfold ReportSchema.safeParse. rewrite Hparse, <- Hnil, <- Hout.
  destruct errors; split.
  - by intros [= ->].
  - by intros [_ ->].
  - discriminate.
  - by intros [[=] _].
Qed.

(** X13. [reportSchema.safeParse] succeeds exactly when, after trimming,
    the title has 1 to 200 characters and the description 1 to 2000, the
    category is one of the four labels, and a given location has at most 500
    characters; its data are then the trimmed strings. In every other case
    it fails with at least one issue. *)
Theorem schema_accepts input :
  let in_range :=
    1 ≤ length (trim (ReportSchema.title input)) ≤ 200 ∧
    ReportSchema.category input ∈ ReportSchema.category_options ∧
    1 ≤ length (trim (ReportSchema.description input)) ≤ 2000 ∧
    ∀ l, ReportSchema.location input = Some l → length (trim l) ≤ 500 in
  (∀ data,
     ReportSchema.safeParse input = ReportSchema.success data ↔
     in_range ∧
     data = ReportSchema.Input (trim (ReportSchema.title input))
              (ReportSchema.category input)
              (trim (ReportSchema.description input))
              (trim <$> ReportSchema.location input)) ∧
  ((∃ firstError errors,
      ReportSchema.safeParse input = ReportSchema.failure (firstError :: errors))
   ↔ ¬ in_range).
Proof.
  intros in_range. split; [apply safeParse_spec|].
  destruct (parse_issues input) as (d & errors & Hparse & _ & Hnil).
  unfold ReportSchema.safeParse. rewrite Hparse. fold in_range in Hnil.
  destruct errors as [|e errors]; split.
  - by intros (? & ? & [=]).
  - intros Hbad. destruct Hbad. by apply Hnil.
  - intros _ Hgood. by apply Hnil in Hgood.
  - eauto.
Qed.

(** * The name of an uploaded file *)

Lemma split_pop_spec sep s segment :
  sep ∉ segment →
  (sep ∉ split_pop sep s segment) ∧
  (split_pop sep s segment `suffix_of` segment ++ s) ∧
  (sep ∉ s → split_pop sep s segment = segment ++ s).
Proof.
  revert segment. induction s as [|c s IH]; intros segment Hseg; simpl.
  - rewrite app_nil_r. done.
  - case_bool_decide as Hc.
    + subst c. destruct (IH []) as (H1 & H2 & _); [apply not_elem_of_nil|].
      split; [done|]. split.
      * simpl in H2. etrans; [exact H2|].
        apply suffix_app_r, suffix_cons_r. done.
      * intros Hno. destruct Hno. apply list_elem_of_here.
    + destruct (IH (segment ++ [c])) as (H1 & H2 & H3).
      { intros [?|?%list_elem_of_singleton]%elem_of_app; [done|congruence]. }
      rewrite <- app_assoc in H2, H3. simpl in H2, H3.
      split; [done|]. split; [done|].
      intros Hno. apply H3. intros Hin. apply Hno. by apply list_elem_of_further.
Qed.

(** X14. The extension [image.name.split(".").pop()] of a file name holds
    no dot and is the end of the name; a name without a dot is its own
    extension, and a name that ends in a dot has the empty one. *)
Theorem file_extension name :
  let fileExt := split_pop 46 name [] in
  (46%N ∉ fileExt) ∧
  (fileExt `suffix_of` name) ∧
  (46%N ∉ name → fileExt = name) ∧
  split_pop 46 (name ++ [46%N]) [] = [].
Proof.
  intros fileExt.
  destruct (split_pop_spec 46 name []) as (H1 & H2 & H3); [apply not_elem_of_nil|].
  split; [done|]. split; [done|]. split; [done|].
  assert (∀ s segment, split_pop 46 (s ++ [46%N]) segment = []) as Hend.
  { induction s as [|c s IH]; intros segment; simpl.
    - done.
    - case_bool_decide; apply IH. }
  apply Hend.
Qed.

(** * What the page sends to the store *)

(** The input the handler hands to the schema. *)
Lemma handleSubmit_input_location f l :
  SubmitReport.or_else (Some (SubmitReport.location f)) = Some l →
  l = SubmitReport.location f.
Proof. destruct (SubmitReport.location f); simpl; congruence. Qed.

(** X15. Whatever the form holds and whatever the storage and the store
    answer, every insert [handleSubmit] issues carries values in range: the
    trimmed title of 1 to 200 characters, the trimmed description of 1 to
    2000, a category the enum accepts, no location or the non-empty trimmed
    one of at most 500 characters, and the signed-in user as owner. *)
Theorem submitted_values_in_range user f :
  every_call
    (inserts (λ v,
       v_title v = trim (SubmitReport.title f) ∧
       1 ≤ length (v_title v) ≤ 200 ∧
       v_description v = trim (SubmitReport.description f) ∧
       1 ≤ length (v_description v) ≤ 2000 ∧
       is_Some (report_category_in (v_category v)) ∧
       (∀ l, v_location v = Some l →
             l = trim (SubmitReport.location f) ∧ 1 ≤ length l ≤ 500) ∧
       user = Some (v_user_id v)))
    (SubmitReport.handleSubmit user f).
Proof.
  destruct user as [user_id|]; [|done].
  unfold SubmitReport.handleSubmit.
  set (input := ReportSchema.Input _ _ _ _).
  destruct (ReportSchema.safeParse input) as [data|errors] eqn:Hparse.
  - apply safeParse_spec in Hparse as [((Ht1 & Ht2) & Hc & (Hd1 & Hd2) & Hl) ->].
    subst input.
    cbn [ReportSchema.title ReportSchema.category ReportSchema.description
         ReportSchema.location] in *.
    assert (∀ imageUrl,
      inserts (λ v,
         v_title v = trim (SubmitReport.title f) ∧
         1 ≤ length (v_title v) ≤ 200 ∧
         v_description v = trim (SubmitReport.description f) ∧
         1 ≤ length (v_description v) ≤ 2000 ∧
         is_Some (report_category_in (v_category v)) ∧
         (∀ l, v_location v = Some l →
               l = trim (SubmitReport.location f) ∧ 1 ≤ length l ≤ 500) ∧
         Some user_id = Some (v_user_id v)) _
        (reports_insert
           (ReportValues (trim (SubmitReport.title f)) (SubmitReport.category f)
              (trim (SubmitReport.description f))
              (SubmitReport.or_else
                 (trim <$> SubmitReport.or_else (Some (SubmitReport.location f))))
              imageUrl user_id))) as Hgood.
    { intros imageUrl.
      cbn [inserts v_title v_category v_description v_location v_user_id].
      split; [done|]. split; [done|]. split; [done|].
      split; [done|]. split; [|split; [|done]].
      - unfold report_category_in.
        repeat (apply elem_of_cons in Hc as [->|Hc]);
          [by eexists..|by apply elem_of_nil in Hc].
      - intros l H.
        destruct (SubmitReport.or_else (Some (SubmitReport.location f)))
          as [l'|] eqn:Hl'; [|discriminate H].
        specialize (Hl l' eq_refl).
        apply handleSubmit_input_location in Hl'. subst l'.
        cbn [fmap option_fmap option_map SubmitReport.or_else] in H.
        destruct (trim (SubmitReport.location f)) eqn:Ht; [discriminate H|].
        injection H as <-. simpl in *. split; [done|lia]. }
    destruct (SubmitReport.image f) as [image|]; simpl.
    + destruct (MAX_FILE_SIZE <? file_size image)%N; simpl.
      * repeat split.
      * split; [done|]. intros _. split; [done|]. intros uuid.
        split; [done|]. intros [uploadError|]; simpl.
        -- repeat split.
        -- split; [done|]. intros publicUrl.
           split; [apply (Hgood (Some publicUrl))|].
           intros [error|]; simpl; repeat split.
    + split; [done|]. intros _. split; [apply (Hgood None)|].
      intros [error|]; simpl; repeat split.
  - destruct errors; simpl; repeat split.
Qed.

(** * The size of the image *)



(** * A submission against the store *)

Section Submission.
Context (env : request_env).
Context (upload_answer : text → text → File → option PostgrestError).
Context (public_url : text → text → text).
Context (random_uuid random_number : text) (message_of : sqlstate → text).

Local Abbreviation run_page :=
  (run env upload_answer public_url random_uuid random_number message_of).

(** The ways [handleSubmit] ends for a signed-in user: with one toast of
    failure and the database as it was, or with the row the store has
    accepted. *)
Lemma handleSubmit_cases (P : world → Prop) user_id f w :
  (∀ t, toast_title t ∈ [lit "Validation failed"; lit "Submission failed"] →
        P (World (db w) (screen w ++ [Loading true; Toasted t; Loading false]))) →
  (∀ db' n c imageUrl,
     report_category_in (SubmitReport.category f) = Some c →
     execute env
       (InsertReport
          (Reports.Values None (trim (SubmitReport.title f)) c
             (trim (SubmitReport.description f)) imageUrl
             (SubmitReport.or_else
                (trim <$> SubmitReport.or_else (Some (SubmitReport.location f))))
             None user_id None None None None)) (db w) = (db', Ok n) →
     P (World db'
          (screen w ++
           [Loading true;
            Toasted (Toast (lit "Report submitted")
                       (lit "Your report has been submitted successfully.")
                       None);
            Navigated (lit "/dashboard"); Loading false]))) →
  P (run_page (SubmitReport.handleSubmit (Some user_id) f) w).1.
Proof.
  intros Hfail Hok.
  assert (∀ t, toast_title t ∈ [lit "Validation failed"; lit "Submission failed"] →
     P (World (db w)
          (((screen w ++ [Loading true]) ++ [Toasted t]) ++ [Loading false])))
    as Hfail'.
  { intros t Ht. rewrite <- !app_assoc. by apply Hfail. }
  assert (lit "Validation failed" ∈
            [lit "Validation failed"; lit "Submission failed"]) as Hv
    by apply list_elem_of_here.
  assert (lit "Submission failed" ∈
            [lit "Validation failed"; lit "Submission failed"]) as Hs
    by apply list_elem_of_further, list_elem_of_here.
  unfold SubmitReport.handleSubmit.
  set (input := ReportSchema.Input _ _ _ _).
  destruct (ReportSchema.safeParse input) as [data|errors] eqn:Hparse.
  - apply safeParse_spec in Hparse as [_ ->]. subst input.
    cbn [ReportSchema.title ReportSchema.category ReportSchema.description
         ReportSchema.location].
    assert (∀ imageUrl scr,
      (∀ t, toast_title t ∈ [lit "Validation failed"; lit "Submission failed"] →
            P (World (db w) ((scr ++ [Toasted t]) ++ [Loading false]))) →
      (∀ db' n c,
         report_category_in (SubmitReport.category f) = Some c →
         execute env
           (InsertReport
              (Reports.Values None (trim (SubmitReport.title f)) c
                 (trim (SubmitReport.description f)) imageUrl
                 (SubmitReport.or_else
                    (trim <$>
                     SubmitReport.or_else (Some (SubmitReport.location f))))
                 None user_id None None None None)) (db w) = (db', Ok n) →
         P (World db'
              (((scr ++ [Toasted (Toast (lit "Report submitted")
                           (lit "Your report has been submitted successfully.")
                           None)])
                ++ [Navigated (lit "/dashboard")]) ++ [Loading false]))) →
      P (run_page
           (error ← await (reports_insert
              (ReportValues (trim (SubmitReport.title f))
                 (SubmitReport.category f)
                 (trim (SubmitReport.description f))
                 (SubmitReport.or_else
                    (trim <$>
                     SubmitReport.or_else (Some (SubmitReport.location f))))
                 imageUrl user_id));
            match error with
            | Some _ => SubmitReport.catch;; await (setLoading false)
            | None =>
                await (toast (Toast (lit "Report submitted")
                  (lit "Your report has been submitted successfully.")
                  None));;
                await (navigate (lit "/dashboard"));;
                await (setLoading false)
            end) (World (db w) scr)).1) as Hinsert.
    { intros imageUrl scr Hf Ho. simpl. unfold request, insert_statement.
      cbn [v_category v_title v_description v_image_url v_location v_user_id db
           screen].
      destruct (report_category_in (SubmitReport.category f)) as [c|] eqn:Hc.
      - destruct (execute env _ (db w)) as [db' [n|e]] eqn:Hex; simpl.
        + by eapply Ho.
        + pose proof (execute_Err _ _ _ e ltac:(by rewrite Hex)) as Hsame.
          rewrite Hex in Hsame. simpl in Hsame. subst db'. by apply Hf.
      - simpl. by apply Hf. }
    destruct (SubmitReport.image f) as [image|].
    + destruct (MAX_FILE_SIZE <? file_size image)%N.
      * simpl. by apply Hfail'.
      * simpl. destruct (upload_answer _ _ image) as [uploadError|]; simpl.
        -- by apply Hfail'.
        -- apply (Hinsert _ (screen w ++ [Loading true])).
           ++ intros t Ht. by apply Hfail'.
           ++ intros db' n c Hc Hex. rewrite <- !app_assoc. by eapply Hok.
    + apply (Hinsert None (screen w ++ [Loading true])).
      * intros t Ht. by apply Hfail'.
      * intros db' n c Hc Hex. rewrite <- !app_assoc. by eapply Hok.
  - destruct errors; simpl; by apply Hfail'.
Qed.

(** X17. However the storage and the store answer, [handleSubmit] of a
    signed-in user ends in one of two ways, always with the loading flag
    reset. Either the database is as it was and the screen shows one toast,
    Validation failed or Submission failed; or the store holds one more
    report: pending, without reviewer, owned by the signed-in user who is
    the caller, with the trimmed title and description, and the screen shows
    Report submitted and has gone to the dashboard. *)
Theorem submission_outcome user_id f w :
  let w' := (run_page (SubmitReport.handleSubmit (Some user_id) f) w).1 in
  (db w' = db w ∧
   ∃ t, toast_title t ∈ [lit "Validation failed"; lit "Submission failed"] ∧
        screen w' = screen w ++ [Loading true; Toasted t; Loading false]) ∨
  (∃ row, reports (db w') = reports (db w) ++ [row] ∧
          Reports.status row = pending ∧
          Reports.user_id row = user_id ∧
          auth_uid env = Some user_id ∧
          Reports.verified_by row = None ∧
          Reports.verified_at row = None ∧
          Reports.title row = trim (SubmitReport.title f) ∧
          Reports.description row = trim (SubmitReport.description f) ∧
          screen w' = screen w ++
            [Loading true;
             Toasted (Toast (lit "Report submitted")
                        (lit "Your report has been submitted successfully.")
                        None);
             Navigated (lit "/dashboard"); Loading false]).
Proof.
  intros w'. subst w'. apply handleSubmit_cases.
  - intros t Ht. left. eauto.
  - intros db' n c imageUrl Hc Hex. right.
    apply insert_report_status in Hex as (Hrows & Hst & Ho).
    eexists. split; [exact Hrows|]. by repeat split.
Qed.

(** X18. When the upload of the image fails, nothing is inserted: the
    database stays as it was and the page shows the toast Submission failed
    with its fixed message, not the error of the storage. *)
Theorem failed_upload_inserts_nothing user_id f data image w :
  ReportSchema.safeParse
    (ReportSchema.Input (SubmitReport.title f) (SubmitReport.category f)
       (SubmitReport.description f)
       (SubmitReport.or_else (Some (SubmitReport.location f))))
  = ReportSchema.success data →
  SubmitReport.image f = Some image →
  (file_size image ≤ MAX_FILE_SIZE)%N →
  (∀ bucket fileName, is_Some (upload_answer bucket fileName image)) →
  run_page (SubmitReport.handleSubmit (Some user_id) f) w =
  (World (db w)
     (screen w ++
      [Loading true;
       Toasted (Toast (lit "Submission failed")
                  (lit "Failed to submit report. Please try again.")
                  (Some (lit "destructive")));
       Loading false]), ()).
Proof.
  intros Hparse Himage Hsize%N.ltb_ge Hup. unfold SubmitReport.handleSubmit.
  rewrite Hparse, Himage, Hsize. simpl.
  destruct (upload_answer _ _ image) as [e|] eqn:He; simpl.
  - by rewrite <- !app_assoc.
  - match type of He with
    | upload_answer ?bucket ?fileName _ = _ =>
        destruct (Hup bucket fileName) as [e He']
    end.
    congruence.
Qed.

(** X19. The second copy of the page sends the form as it stands. With a
    category of the enum, the row the store accepts has the title and the
    description exactly as typed, untrimmed, blank or over-long ones
    included; with any other category the store refuses the value and the
    page shows the message of the store's error. *)
Theorem unchecked_submission_outcome user_id title category description
    location w :
  let f := SubmitReport.Form title category description location None in
  let w' := (run_page (SubmitReportUnchecked.handleSubmit (Some user_id) f) w).1 in
  (∀ c db' n,
     report_category_in category = Some c →
     execute env
       (InsertReport
          (Reports.Values None title c description None
             (SubmitReport.or_else (Some location)) None user_id
             None None None None)) (db w) = (db', Ok n) →
     reports (db w') =
       reports (db w) ++
       [Reports.Row (gen_random_uuid env) title c description None
          (SubmitReport.or_else (Some location)) pending user_id None None
          (now env) (now env)] ∧
     screen w' = screen w ++
       [Loading true;
        Toasted (Toast (lit "Report submitted")
                   (lit "Your report has been submitted successfully.") None);
        Navigated (lit "/dashboard"); Loading false]) ∧
  (report_category_in category = None →
   w' = World (db w)
          (screen w ++
           [Loading true;
            Toasted (Toast (lit "Submission failed")
                       (message_of invalid_text_representation)
                       (Some (lit "destructive")));
            Loading false])).
Proof.
  intros f w'. subst f w'. rewrite unchecked_submission_inserts.
  cbn [run answer show]. unfold request, insert_statement.
  cbn [v_category v_title v_description v_image_url v_location v_user_id db
       screen].
  split.
  - intros c db' n Hc Hex. rewrite Hc, Hex.
    cbn [error_of run answer show db screen fst]. rewrite <- !app_assoc.
    split; [|done]. by apply insert_report_status in Hex as (-> & _).
  - intros Hc. rewrite Hc. cbn [run answer show db screen fst error_message].
    by rewrite <- !app_assoc.
Qed.
End Submission.

(** Alice's upload fails while she is offline. *)
Lemma failed_upload_inserts_nothing_witness :
  let f := SampleForms.pothole (Some (SampleForms.photo 1000)) in
  (file_size (SampleForms.photo 1000) ≤ MAX_FILE_SIZE)%N ∧
  SampleForms.page_offline (Some Sample.alice)
    (SubmitReport.handleSubmit (Some Sample.alice) f) (World Sample.db0 []) =
  (World Sample.db0
     [Loading true;
      Toasted (Toast (lit "Submission failed")
                 (lit "Failed to submit report. Please try again.")
                 (Some (lit "destructive")));
      Loading false], ()).
Proof.
  intros f.
  assert (file_size (SampleForms.photo 1000) ≤ MAX_FILE_SIZE)%N as Hsize
    by (vm_compute; discriminate).
  split; [exact Hsize|].
  apply (failed_upload_inserts_nothing (Sample.as_ (Some Sample.alice))
           (λ _ _ _, Some (MkError (lit "offline"))) (λ _ fileName, fileName)
           (lit "uuid") (lit "0.5") (λ _, lit "error") Sample.alice f
           (ReportSchema.Input (lit "Pothole") (lit "road_damage")
              (lit "pothole on Elm St") (Some (lit "Elm St")))
           (SampleForms.photo 1000) (World Sample.db0 []));
    [vm_compute; reflexivity|reflexivity|exact Hsize|by eexists].
Defined.

(** Through the second copy Alice files a report with a blank title. *)
Lemma unchecked_submission_outcome_witness :
  let w' := (Sample.page (Some Sample.alice)
               (SubmitReportUnchecked.handleSubmit (Some Sample.alice)
                  (SubmitReport.Form (lit "  ") (lit "other") (lit " x") [] None))
               (World Sample.db0 [])).1 in
  report_category_in (lit "other") = Some other ∧
  reports (db w') =
    reports Sample.db0 ++
    [Reports.Row 500 (lit "  ") other (lit " x") None None pending Sample.alice
       None None 9%Z 9%Z].
Proof.
  intros w'.
  assert (report_category_in (lit "other") = Some other) as Hc by reflexivity.
  split; [exact Hc|].
  destruct (unchecked_submission_outcome (Sample.as_ (Some Sample.alice))
              (λ _ _ _, None) (λ _ fileName, fileName) (lit "uuid") (lit "0.5")
              (λ _, lit "error") Sample.alice (lit "  ") (lit "other")
              (lit " x") [] (World Sample.db0 [])) as [Hok _].
  destruct (Hok other
              (execute (Sample.as_ (Some Sample.alice))
                 (InsertReport
                    (Reports.Values None (lit "  ") other (lit " x") None None
                       None Sample.alice None None None None)) Sample.db0).1
              1 Hc) as [Hrows _]; [vm_compute; reflexivity|].
  exact Hrows.
Defined.

(** * The moderation page against the store *)

(** The status a review writes. *)
Lemma label_in status :
  report_status_in (Moderate.label status) =
  Some (match status with
        | Moderate.verified => verified
        | Moderate.rejected => rejected
        end).
Proof. by destruct status. Qed.

(** A request that sets a status other than pending changes nothing when its
    caller holds no MODERATOR role. *)
Lemma review_needs_moderator env target st db :
  has_role db (auth_uid env) MODERATOR = false →
  st ≠ pending →
  (execute env (UpdateReport target (Reports.set_status_to st)) db).1 = db.
Proof.
  intros Hm Hst.
  destruct (execute env _ db) as [db' [n|e]] eqn:Hex; simpl.
  - revert Hex. rewrite execute_update_report.
    destruct (update_rows _ _ _ _ _ _) as [[rows k]|e] eqn:Hup; [|discriminate].
    destruct (reports_violation _ _); [discriminate|]. intros [= <- _].
    apply update_rows_Ok in Hup as (-> & _ & Hadm).
    simpl. transitivity (with_reports db (reports db));
      [|apply with_reports_same].
    f_equal. transitivity (id <$> reports db); [|apply list_fmap_id].
    apply Forall_fmap_ext_1.
    apply Forall_forall. intros r Hr.
    destruct (bool_decide _ && updatable _ _ _ _) eqn:Hhit; [|done]. exfalso.
    apply (Hadm r Hr) in Hhit.
    apply reports_admissible_spec in Hhit as [[_ Hp]|?]; [|congruence].
    by apply Hst.
  - pose proof (execute_Err env _ db e ltac:(by rewrite Hex)) as Hsame.
    by rewrite Hex in Hsame.
Qed.

Section Moderation.
Context (env : request_env).
Context (upload_answer : text → text → File → option PostgrestError).
Context (public_url : text → text → text).
Context (random_uuid random_number : text) (message_of : sqlstate → text).

Local Abbreviation run_page :=
  (run env upload_answer public_url random_uuid random_number message_of).

(** [updateStatus] sends one request and shows one toast on its outcome. *)
Lemma updateStatus_run reportId status w :
  let st := match status with
            | Moderate.verified => verified
            | Moderate.rejected => rejected
            end in
  let r := execute env (UpdateReport reportId (Reports.set_status_to st)) (db w) in
  run_page (Moderate.updateStatus reportId status) w =
  (World r.1
     (screen w ++
      [Toasted
         match r.2 with
         | Ok _ =>
             Toast (lit "Report updated")
                   (lit "Report " ++ Moderate.label status ++ lit ".") None
         | Err e =>
             Toast (lit "Update failed") (message_of e)
                   (Some (lit "destructive"))
         end]), ()).
Proof.
  intros st r. subst st r. unfold Moderate.updateStatus.
  cbn [run answer mbind client_bind bind await]. unfold request, update_status_statement.
  rewrite label_in.
  by destruct (execute env _ (db w)) as [db' [n|e]].
Qed.

(** X20. From the moderation page nobody without the MODERATOR role
    changes anything: whatever report id and decision [updateStatus] is
    called with, the database stays as it was, also for the owner of the
    report. The page still shows Report updated whenever the store raised
    no error, which is the case when the id is not that of a pending report
    of the caller. *)
Theorem review_page_needs_moderator reportId status w :
  has_role (db w) (auth_uid env) MODERATOR = false →
  let w' := (run_page (Moderate.updateStatus reportId status) w).1 in
  db w' = db w ∧
  (consistent (db w) →
   (∀ r, r ∈ reports (db w) → Reports.id r = reportId →
         auth_uid env ≠ Some (Reports.user_id r) ∨ Reports.status r ≠ pending) →
   screen w' = screen w ++
     [Toasted (Toast (lit "Report updated")
                 (lit "Report " ++ Moderate.label status ++ lit ".") None)]).
Proof.
  intros Hm w'. subst w'. rewrite updateStatus_run. simpl. split.
  - apply review_needs_moderator; [done|by destruct status].
  - intros Hc Hmiss. by rewrite (update_report_misses env reportId _ (db w)).
Qed.

(** X21. Whoever calls it, [updateStatus] leaves every column of every
    stored report as it was, [verified_by] and [verified_at] included, the
    status and [updated_at] alone excepted; and a report whose row has
    changed is the one with the given id, now with the chosen status and
    the time of the request as [updated_at]. *)
Theorem review_touches_status_only reportId status w i r :
  reports (db w) !! i = Some r →
  let w' := (run_page (Moderate.updateStatus reportId status) w).1 in
  ∃ r', reports (db w') !! i = Some r' ∧
        Reports.id r' = Reports.id r ∧
        Reports.title r' = Reports.title r ∧
        Reports.category r' = Reports.category r ∧
        Reports.description r' = Reports.description r ∧
        Reports.image_url r' = Reports.image_url r ∧
        Reports.location r' = Reports.location r ∧
        Reports.user_id r' = Reports.user_id r ∧
        Reports.verified_by r' = Reports.verified_by r ∧
        Reports.verified_at r' = Reports.verified_at r ∧
        Reports.created_at r' = Reports.created_at r ∧
        (r' = r ∨
         Reports.id r = reportId ∧
         report_status_out (Reports.status r') = Moderate.label status ∧
         Reports.updated_at r' = now env).
Proof.
  intros Hi w'. subst w'. rewrite updateStatus_run. simpl.
  destruct (execute env _ (db w)) as [db' [n|e]] eqn:Hex; simpl.
  - destruct (update_report_lookup _ _ _ _ _ _ _ _ Hex Hi) as [-> _].
    destruct (bool_decide _ && updatable _ _ _ _) eqn:Hhit.
    + eexists. split; [done|]. repeat split. right.
      apply andb_true_iff in Hhit as [Hid%bool_decide_eq_true _].
      split; [done|]. split; [by destruct status|done].
    + exists r. repeat split. by left.
  - pose proof (execute_Err env _ (db w) e ltac:(by rewrite Hex)) as Hsame.
    rewrite Hex in Hsame. simpl in Hsame. subst db'.
    exists r. repeat split; [done|]. by left.
Qed.
End Moderation.

(** Carol, who is no moderator, presses Verify on Alice's report. *)
Lemma review_page_needs_moderator_witness :
  let w' := (Sample.page (Some Sample.carol)
               (Moderate.updateStatus 100 Moderate.verified)
               (World Sample.db0 [])).1 in
  has_role Sample.db0 (Some Sample.carol) MODERATOR = false ∧
  db w' = Sample.db0 ∧
  screen w' = [Toasted (Toast (lit "Report updated")
                          (lit "Report verified.") None)].
Proof.
  intros w'.
  assert (has_role Sample.db0 (Some Sample.carol) MODERATOR = false) as Hm
    by (vm_compute; reflexivity).
  split; [exact Hm|].
  destruct (review_page_needs_moderator (Sample.as_ (Some Sample.carol))
              (λ _ _ _, None) (λ _ fileName, fileName) (lit "uuid") (lit "0.5")
              (λ _, lit "error") 100 Moderate.verified (World Sample.db0 []) Hm)
    as [Hdb Hscreen].
  split; [exact Hdb|]. apply Hscreen.
  - split; vm_compute; reflexivity.
  - intros r Hr Hid. simpl in Hr.
    repeat (apply elem_of_cons in Hr as [->|Hr]);
      try (by apply elem_of_nil in Hr); try discriminate Hid.
    left. discriminate.
Defined.

(** Bob verifies report 100: the row keeps its columns, and no reviewer. *)
Lemma review_touches_status_only_witness :
  let w' := (Sample.page (Some Sample.bob)
               (Moderate.updateStatus 100 Moderate.verified)
               (World Sample.db0 [])).1 in
  reports Sample.db0 !! 0 = Some (Sample.report 100 pending Sample.alice) ∧
  ∃ r', reports (db w') !! 0 = Some r' ∧
        Reports.status r' = verified ∧
        Reports.verified_by r' = None ∧
        Reports.title r' = lit "Pothole".
Proof.
  intros w'.
  assert (reports Sample.db0 !! 0 = Some (Sample.report 100 pending Sample.alice))
    as Hi by reflexivity.
  split; [exact Hi|].
  destruct (review_touches_status_only (Sample.as_ (Some Sample.bob))
              (λ _ _ _, None) (λ _ fileName, fileName) (lit "uuid") (lit "0.5")
              (λ _, lit "error") 100 Moderate.verified (World Sample.db0 []) 0
              _ Hi)
    as (r' & Hr' & _ & Ht & _ & _ & _ & _ & _ & Hv & _).
  exists r'. split; [exact Hr'|]. split; [|split; [exact Hv|exact Ht]].
  vm_compute in Hr'. by injection Hr' as <-.
Defined.

(** * The dashboard against the store *)

Lemma report_status_out_inj s1 s2 :
  report_status_out s1 = report_status_out s2 → s1 = s2.
Proof. destruct s1, s2; (done || discriminate). Qed.

(** A count by label is the count by status. *)
Lemma count_label st (rows : list Reports.row) :
  length (filter (λ r, row_status r = report_status_out st)
            ((λ r, StatusRow (report_status_out (Reports.status r))) <$> rows)) =
  length (filter (λ r, Reports.status r = st) rows).
Proof.
  induction rows as [|r rows IH]; [done|].
  rewrite fmap_cons, !filter_cons. simpl.
  repeat case_decide; simpl; try (by rewrite IH).
  - exfalso. by apply H0, report_status_out_inj.
  - exfalso. apply H. by f_equal.
Qed.

(** The policy hides no verified report. *)
Lemma select_reports_verified env d :
  filter (λ r, Reports.status r = verified) (select_reports env d) =
  filter (λ r, Reports.status r = verified) (reports d).
Proof.
  unfold select_reports. induction (reports d) as [|r rows IH]; [done|].
  rewrite !filter_cons.
  destruct (decide (Reports.status r = verified)) as [Hv|Hv].
  - rewrite decide_True by (apply Is_true_true, reports_select_spec; auto).
    rewrite filter_cons, decide_True by done. by rewrite IH.
  - case_decide; [|done]. by rewrite filter_cons, decide_False.
Qed.

Section DashboardPage.
Context (env : request_env).
Context (upload_answer : text → text → File → option PostgrestError).
Context (public_url : text → text → text).
Context (random_uuid random_number : text) (message_of : sqlstate → text).

Local Abbreviation run_page :=
  (run env upload_answer public_url random_uuid random_number message_of).

(** X22. [fetchStats] reads without changing the store and sets the
    statistics of what its caller may read: the total is the number of
    reports the caller reads, while the verified count is the number of
    verified reports in the table, the same for every caller. An anonymous
    caller gets zero pending and zero rejected; a caller who holds
    MODERATOR gets the size of the table as total. *)
Theorem dashboard_counts w :
  ∃ stats,
    run_page Dashboard.fetchStats w =
      (World (db w) (screen w ++ [StatsSet stats]), ()) ∧
    Stats.total stats = length (select_reports env (db w)) ∧
    Stats.verified stats =
      length (filter (λ r, Reports.status r = verified) (reports (db w))) ∧
    Stats.pending stats =
      length (filter (λ r, Reports.status r = pending)
                (select_reports env (db w))) ∧
    Stats.rejected stats =
      length (filter (λ r, Reports.status r = rejected)
                (select_reports env (db w))) ∧
    (auth_uid env = None →
     Stats.pending stats = 0 ∧ Stats.rejected stats = 0 ∧
     Stats.total stats = Stats.verified stats) ∧
    (has_role (db w) (auth_uid env) MODERATOR = true →
     Stats.total stats = length (reports (db w))).
Proof.
  eexists. split; [reflexivity|]. cbn [Dashboard.stats Stats.total
    Stats.verified Stats.pending Stats.rejected].
  rewrite length_fmap.
  rewrite (count_label verified), (count_label pending), (count_label rejected).
  rewrite select_reports_verified.
  split; [done|]. split; [done|]. split; [done|]. split; [done|]. split.
  - intros Hanon.
    assert (∀ r, r ∈ select_reports env (db w) → Reports.status r = verified)
      as Hall.
    { intros r [_ Hr]%select_reports_spec. rewrite Hanon in Hr.
      rewrite has_role_anonymous in Hr. by destruct Hr as [?|[?|?]]. }
    split; [|split].
    + rewrite filter_none; [done|]. intros r Hr ?. apply Hall in Hr. congruence.
    + rewrite filter_none; [done|]. intros r Hr ?. apply Hall in Hr. congruence.
    + by rewrite <- (select_reports_verified env), filter_all.
  - intros Hm. f_equal. unfold select_reports. apply filter_all.
    intros r _. apply Is_true_true, reports_select_spec. auto.
Qed.
End DashboardPage.

(** * The route guard *)

(** X23. [ProtectedRoute] renders its children only for a signed-in user
    once loading is over. A user whose role is known and outside
    [allowedRoles] is sent to the dashboard, with the empty list every known
    role is; but a signed-in user whose role is not known passes the guard
    whatever [allowedRoles] holds, as every user does when the prop is
    absent. *)
Theorem route_guard allowedRoles user role loading :
  let rendered :=
    ProtectedRoute.ProtectedRoute allowedRoles user role loading in
  (rendered = ProtectedRoute.Children →
   is_Some user ∧ loading = false ∧
   ∀ allowed ro, allowedRoles = Some allowed → role = Some ro → ro ∈ allowed) ∧
  (loading = false → is_Some user →
   (role = None ∨ allowedRoles = None) →
   rendered = ProtectedRoute.Children) ∧
  (loading = false → is_Some user →
   ∀ allowed ro, allowedRoles = Some allowed → role = Some ro → ro ∉ allowed →
   rendered = ProtectedRoute.Navigate (lit "/dashboard")) ∧
  (loading = false → user = None →
   rendered = ProtectedRoute.Navigate (lit "/login")).
Proof.
  intros rendered. subst rendered. unfold ProtectedRoute.ProtectedRoute.
  split; [|split; [|split]].
  - destruct loading; [discriminate|]. destruct user as [u|]; [|discriminate].
    intros Hch. split; [by eexists|]. split; [done|].
    intros allowed ro -> ->. by case_bool_decide.
  - intros -> [u ->] [-> | ->]; [by destruct allowedRoles|done].
  - intros -> [u ->] allowed ro -> -> Hno. by rewrite bool_decide_eq_false_2.
  - by intros -> ->.
Qed.

(** Alice's role is not known yet, then known as USER, on the moderators'
    route. *)
Lemma route_guard_witness :
  ProtectedRoute.ProtectedRoute (Some [MODERATOR]) (Some Sample.alice) None false
    = ProtectedRoute.Children ∧
  ProtectedRoute.ProtectedRoute (Some [MODERATOR]) (Some Sample.alice)
    (Some USER) false = ProtectedRoute.Navigate (lit "/dashboard").
Proof.
  destruct (route_guard (Some [MODERATOR]) (Some Sample.alice) None false)
    as (_ & Hpass & _).
  destruct (route_guard (Some [MODERATOR]) (Some Sample.alice) (Some USER) false)
    as (_ & _ & Hstop & _).
  split.
  - apply Hpass; [reflexivity|by eexists|by left].
  - apply (Hstop eq_refl (ex_intro _ _ eq_refl) [MODERATOR] USER eq_refl eq_refl).
    intros Hin. apply list_elem_of_singleton in Hin. discriminate.
Defined.
